(** * command_builder.py: a command-dispatch registry

    Shallow embedding of [src/python/command_builder.py] (class
    [CommandBuilder]) and the properties of its public operations.

    Layout:
    - [Py]: the slice of the Python runtime the class relies on
      (exceptions, values, type objects, the library calls [int], [float],
      [re.Pattern.match], calling a callable);
    - [CommandBuilder]: the methods, one definition per method, same names;
    - [Reentrant]: the same methods for callables that call back into
      the instance, on a machine with list objects; [CommandBuilder] is
      its restriction to callables that stay outside ([Outside],
      [Refinement]);
    - [Demo]: a small concrete runtime with the commands of the
      [__main__] block except [div], used to evaluate the methods on
      concrete inputs; [Exiting] and [Growing]: two more runtimes, with
      [sys.exit] and with callables that call back;
    - the theorems: the operations, the search order, the edge cases of
      the coercion, lookups across additions and removals, what [get] and
      [handle] write. *)

From Stdlib Require Import String Ascii List ZArith Bool Arith Lia DecimalString.
Import ListNotations.
Local Open Scope string_scope.
Local Open Scope list_scope.

(* ================================================================== *)
(** ** The Python runtime, as far as the class uses it *)

Module Py.

(** Exceptions.  Messages are not modelled: no code path of the class
    inspects them.  [BaseExceptionOnly] stands for the exceptions that
    derive from [BaseException] but not from [Exception] ([SystemExit],
    [KeyboardInterrupt], ...), which [except Exception] lets through. *)
Inductive exn : Type :=
| ValueError
| TypeError
| OtherException (name : string)
| BaseExceptionOnly (name : string).

Definition is_Exception (e : exn) : bool :=
  match e with
  | BaseExceptionOnly _ => false
  | _ => true
  end.

Definition is_ValueError (e : exn) : bool :=
  match e with
  | ValueError => true
  | _ => false
  end.

(** The result of evaluating an expression: a value or a raised
    exception. *)
Inductive outcome (A : Type) : Type :=
| Return (a : A)
| Raise (e : exn).
Arguments Return {A} a.
Arguments Raise {A} e.

Class Monad (m : Type -> Type) : Type :=
  { ret  : forall {A}, A -> m A;
    bind : forall {A B}, m A -> (A -> m B) -> m B }.

#[global] Instance outcome_Monad : Monad outcome :=
  {| ret  := fun A a => Return a;
     bind := fun A B c k =>
               match c with
               | Return a => k a
               | Raise e => Raise e
               end |}.

(** Library types and library calls.  They are not part of the
    repository, so the development is parametric in them.  The calls of
    [Calls] are those of callables that stay outside the instance: a
    declared type has no side effect, a handler acts on the world only,
    and [match] does not raise (the patterns are [str] patterns).
    [Reentrant.Calls] drops the three assumptions. *)
Class Types : Type :=
  { Pattern  : Type;     (* compiled [re.Pattern] objects *)
    pyfloat  : Type;     (* [float] values *)
    pyobj    : Type;     (* any other object *)
    Callable : Type;     (* functions, lambdas, classes *)
    World    : Type;     (* whatever a handler may read or write *)
    Pattern_eq_dec  : forall p q : Pattern,  {p = q} + {p <> q};
    pyobj_eq_dec    : forall p q : pyobj,    {p = q} + {p <> q};
    Callable_eq_dec : forall p q : Callable, {p = q} + {p <> q} }.

Section Values.
Context {T : Types}.

Inductive value : Type :=
| VNone
| VBool  (b : bool)
| VInt   (z : Z)
| VFloat (f : pyfloat)
| VStr   (s : string)
| VObj   (o : pyobj).

(** [v is None] *)
Definition is_None (v : value) : bool :=
  match v with
  | VNone => true
  | _ => false
  end.

(** What may be passed as a declared type.  [Tclass] is an object for
    which [isinstance(t, type)] holds, [Tcallable] one that only has
    [__call__], [Tother] anything else. *)
Inductive pytype : Type :=
| Tint
| Tfloat
| Tbool
| Tstr
| Tclass    (c : Callable)
| Tcallable (c : Callable)
| Tother    (o : pyobj).

Definition pytype_eq_dec : forall a b : pytype, {a = b} + {a <> b}.
Proof.
  decide equality; first [ apply Callable_eq_dec | apply pyobj_eq_dec ].
Defined.

(** One element of [match.groups()]: a string, or [None] for a group
    that did not take part in the match. *)
Definition group : Type := option string.
End Values.

Class Calls {T : Types} : Type :=
  { (* [regex.match(command)]: [None], or the match object's [groups()] *)
    re_match : Pattern -> string -> option (list group);
    (* [int(s)] and [float(s)] on a [str]; [None] when they raise *)
    int_of_str : string -> option Z;
    float_of_str : string -> option pyfloat;
    (* [t(item)] for a declared type that is a class or a callable;
       conversions are taken to be free of side effects *)
    construct : Callable -> group -> outcome value;
    (* calling a handler with the argument list unpacked *)
    invoke : Callable -> list value -> World -> outcome value * World }.

End Py.
Export Py.

Declare Scope py_scope.
Notation "x <- c ;; k" := (bind c (fun x => k))
  (at level 61, c at next level, right associativity) : py_scope.
Notation "' p <- c ;; k" := (bind c (fun p => k))
  (at level 61, p pattern, c at next level, right associativity) : py_scope.
Notation "c ;;; k" := (bind c (fun _ => k))
  (at level 61, right associativity) : py_scope.
Local Open Scope py_scope.

(* ================================================================== *)
(** ** class CommandBuilder *)

Module CommandBuilder.
Section Methods.
Context {T : Types} {C : Calls}.

(** [re.Pattern | str] *)
Inductive matcher : Type :=
| MStr (s : string)
| MPattern (p : Pattern).

(** [tuple[re.Pattern | str, list[type] | None, Callable]] *)
Definition entry : Type := matcher * option (list pytype) * Callable.

Definition entry_matcher (e : entry) : matcher := fst (fst e).
Definition entry_types (e : entry) : option (list pytype) := snd (fst e).
Definition entry_func (e : entry) : Callable := snd e.

(** [==] on matchers: string equality between two [str], pattern
    equality between two patterns, [False] across the two kinds. *)
Definition matcher_eq_dec : forall a b : matcher, {a = b} + {a <> b}.
Proof.
  decide equality; first [ apply string_dec | apply Pattern_eq_dec ].
Defined.

Definition matcher_eqb (a b : matcher) : bool :=
  if matcher_eq_dec a b then true else false.

(** [==] on the tuples and on the list of tuples. *)
Definition entry_eq_dec : forall a b : entry, {a = b} + {a <> b}.
Proof.
  repeat decide equality;
    first [ apply Callable_eq_dec | apply pyobj_eq_dec | apply Pattern_eq_dec ].
Defined.

Definition commands_eqb (a b : list entry) : bool :=
  if list_eq_dec entry_eq_dec a b then true else false.

(** The instance: its only attribute is [self.commands]. *)
Record t : Type := { commands : list entry }.

(** The machine state a method runs in. *)
Record state : Type := { self : t; world : World }.

(** A method body: reads and writes the state, returns or raises.
    What was written before a [raise] stays written. *)
Definition M (A : Type) : Type := state -> outcome A * state.

#[global] Instance M_Monad : Monad M :=
  {| ret  := fun A a => fun st => (Return a, st);
     bind := fun A B c k => fun st =>
               match c st with
               | (Return a, st') => k a st'
               | (Raise e, st') => (Raise e, st')
               end |}.

Definition raise {A} (e : exn) : M A := fun st => (Raise e, st).
Definition lift {A} (o : outcome A) : M A := fun st => (o, st).
Definition read_commands : M (list entry) :=
  fun st => (Return (commands (self st)), st).
Definition write_commands (cs : list entry) : M unit :=
  fun st => (Return tt, {| self := {| commands := cs |}; world := world st |}).

(** [def __init__(self)] *)
Definition __init__ : t := {| commands := [] |}.

(** [def add_command(self, regex, types, func) -> bool] *)
Definition add_command (regex : matcher) (types : option (list pytype))
           (func : Callable) : M bool :=
  cs <- read_commands ;;
  if Nat.eqb (length (filter (fun e => matcher_eqb (entry_matcher e) regex) cs)) 0
  then write_commands (cs ++ [(regex, types, func)]) ;;; ret true
  else ret false.

(** [def remove_command(self, regex) -> bool] *)
Definition remove_command (regex : matcher) : M bool :=
  cs <- read_commands ;;
  let commands' := filter (fun c => negb (matcher_eqb (entry_matcher c) regex)) cs in
  let result := commands_eqb commands' cs in
  write_commands commands' ;;;
  ret result.

(** The nested [def try_convert(item, target_type)].  The body of its
    [try] first, then the [except Exception] wrapper. *)
Definition try_convert_body (item : group) (target_type : pytype) : outcome value :=
  match target_type with
  | Tint =>
      match item with
      | Some s => match int_of_str s with
                  | Some z => Return (VInt z)
                  | None => Raise ValueError
                  end
      | None => Raise TypeError
      end
  | Tfloat =>
      match item with
      | Some s => match float_of_str s with
                  | Some f => Return (VFloat f)
                  | None => Raise ValueError
                  end
      | None => Raise TypeError
      end
  | Tbool =>
      match item with
      | Some s => Return (VBool (negb (String.eqb s "")))
      | None => Return (VBool false)
      end
  | Tstr =>
      match item with
      | Some s => Return (VStr s)
      | None => Return (VStr "None")
      end
  | Tclass c => construct c item
  | Tcallable c => construct c item
  | Tother _ => Raise ValueError
  end.

Definition try_convert (item : group) (target_type : pytype) : outcome value :=
  match try_convert_body item target_type with
  | Return v => Return v
  | Raise e => if is_Exception e then Raise ValueError else Raise e
  end.

(** The inner [for target_type in target_types] of [type_check], for
    one [item]: [Some v] when a conversion gave a value that is not
    [None] (the [append] and [break]), [None] when the loop ran off the
    end of the list. *)
Fixpoint convert_item (item : group) (target_types : list pytype)
  : outcome (option value) :=
  match target_types with
  | [] => Return None
  | target_type :: rest =>
      converted_item <- try_convert item target_type ;;
      if negb (is_None converted_item)
      then Return (Some converted_item)
      else convert_item item rest
  end.

(** The outer [for item in input_list]; [result] is the list being
    appended to. *)
Fixpoint type_check_loop (input_list : list group) (target_types : list pytype)
         (result : list value) : outcome (list value) :=
  match input_list with
  | [] => Return result
  | item :: rest =>
      r <- convert_item item target_types ;;
      match r with
      | Some converted_item =>
          type_check_loop rest target_types (result ++ [converted_item])
      | None => type_check_loop rest target_types result
      end
  end.

(** [@staticmethod def type_check(input_list, target_types)] *)
Definition type_check (input_list : list group)
           (target_types : option (list pytype)) : outcome (list value) :=
  match target_types with
  | None =>
      if Nat.eqb (length input_list) 0 then Return [] else Raise ValueError
  | Some tys => type_check_loop input_list tys []
  end.

(** One turn of the [for] loop of [get], the part inside [try]:
    [Some r] stands for [return r], [None] for a turn that ends without
    returning (the [continue], or an [elif] that does not hold). *)
Definition get_try (command : string) (e : entry)
  : outcome (option (option Callable * option (list value))) :=
  let '(regex, types, func) := e in
  match regex with
  | MPattern p =>
      match re_match p command with
      | Some groups =>
          args <- type_check groups types ;;
          Return (Some (Some func, Some args))
      | None => Return None
      end
  | MStr s =>
      if String.eqb s command
      then Return (Some (Some func, None))
      else Return None
  end.

(** The same turn with its [except ValueError: ...]. *)
Definition get_turn (command : string) (e : entry)
  : outcome (option (option Callable * option (list value))) :=
  match get_try command e with
  | Return r => Return r
  | Raise ex => if is_ValueError ex then Return None else Raise ex
  end.

Fixpoint get_loop (command : string) (cs : list entry)
  : outcome (option Callable * option (list value)) :=
  match cs with
  | [] => Return (None, None)
  | e :: rest =>
      r <- get_turn command e ;;
      match r with
      | Some found => Return found
      | None => get_loop command rest
      end
  end.

(** [def get(self, command)] *)
Definition get (command : string)
  : M (option Callable * option (list value)) :=
  cs <- read_commands ;;
  lift (get_loop command cs).

(** The call [func( *params )]: unpacking [None] raises [TypeError]
    before [func] is entered. *)
Definition call_star (func : Callable) (params : option (list value)) : M value :=
  match params with
  | Some args =>
      fun st =>
        let (r, w) := invoke func args (world st) in
        (r, {| self := self st; world := w |})
  | None => raise TypeError
  end.

(** [def handle(self, command)] *)
Definition handle (command : string) : M (bool * value) :=
  ' (func, params) <- get command ;;
  match func with
  | Some f =>
      r <- call_star f params ;;
      ret (true, r)
  | None => ret (false, VNone)
  end.

(** [def _run(self, func, args)] *)
Definition _run (func : Callable) (args : list value) : M value :=
  call_star func (Some args).

(** [def __call__(self, command)] *)
Definition __call__ (command : string) : M (bool * value) :=
  handle command.

(** [str(n)] for a non-negative [int] *)
Definition str_of_nat (n : nat) : string :=
  NilEmpty.string_of_uint (Nat.to_uint n).

(** [def __repr__(self)] *)
Definition __repr__ : M string :=
  cs <- read_commands ;;
  let command_count := length cs in
  ret ("<CommandBuilder commands: " ++ str_of_nat command_count ++ " command"
       ++ (if Nat.eqb command_count 1 then "s" else "") ++ ">")%string.

(** The calls a client can make on an instance, and the states they
    lead to from a fresh one. *)
Inductive call : Type :=
| Call_add_command (regex : matcher) (types : option (list pytype)) (func : Callable)
| Call_remove_command (regex : matcher)
| Call_handle (command : string)
| Call_call (command : string)
| Call_get (command : string)
| Call_repr.

Definition after (c : call) (st : state) : state :=
  match c with
  | Call_add_command regex types func => snd (add_command regex types func st)
  | Call_remove_command regex => snd (remove_command regex st)
  | Call_handle command => snd (handle command st)
  | Call_call command => snd (__call__ command st)
  | Call_get command => snd (get command st)
  | Call_repr => snd (__repr__ st)
  end.

Inductive reachable : state -> Prop :=
| reachable_init : forall w, reachable {| self := __init__; world := w |}
| reachable_step : forall c st, reachable st -> reachable (after c st).

Definition matchers (st : state) : list matcher :=
  map entry_matcher (commands (self st)).

End Methods.
End CommandBuilder.
Export CommandBuilder.

(* ================================================================== *)
(** ** class CommandBuilder, with callables that call back

    A declared type or a handler is any Python callable: it may print,
    and it may call [add_command] or [remove_command] on the instance that
    is running [get] or [handle].  Here the callables act on the whole
    machine: the list objects, the binding of [self.commands], and the
    world.  [add_command] appends to the list object in place, which a
    [for] loop running over that object sees; [remove_command] builds a
    new list and rebinds the attribute, which such a loop does not see.
    A loop over a list that keeps growing does not end, so [get] takes a
    bound on the number of turns.  [CommandBuilder] above is this class
    for callables that stay outside the instance (see [Outside]). *)

Module Reentrant.
Section Methods.
Context {T : Types}.

Record machine : Type :=
  { heap : nat -> list entry;   (* the list objects, by address *)
    fresh : nat;                (* the next address to allocate *)
    bound : nat;                (* the list [self.commands] is bound to *)
    out : World }.

(** The value of [self.commands]. *)
Definition entries (st : machine) : list entry := heap st (bound st).

Definition M (A : Type) : Type := machine -> outcome A * machine.

#[global] Instance M_Monad : Monad M :=
  {| ret  := fun A a => fun st => (Return a, st);
     bind := fun A B c k => fun st =>
               match c st with
               | (Return a, st') => k a st'
               | (Raise e, st') => (Raise e, st')
               end |}.

Class Calls : Type :=
  { (* [regex.match(command)]: raises, or gives [None] or the [groups()] *)
    re_match : Pattern -> string -> outcome (option (list group));
    int_of_str : string -> option Z;
    float_of_str : string -> option pyfloat;
    (* [t(item)] for a declared type that is a class or a callable *)
    construct : Callable -> group -> M value;
    (* calling a handler with the argument list unpacked *)
    invoke : Callable -> list value -> M value }.

Context {C : Calls}.

Definition raise {A} (e : exn) : M A := fun st => (Raise e, st).
Definition lift {A} (o : outcome A) : M A := fun st => (o, st).

Definition read_commands : M (list entry) :=
  fun st => (Return (entries st), st).

(** [self.commands.append(e)]: the list object itself changes. *)
Definition append_commands (e : entry) : M unit :=
  fun st =>
    (Return tt,
     {| heap := fun a => if Nat.eqb a (bound st) then entries st ++ [e] else heap st a;
        fresh := fresh st; bound := bound st; out := out st |}).

(** [self.commands = cs] for a list [cs] just built. *)
Definition rebind_commands (cs : list entry) : M unit :=
  fun st =>
    (Return tt,
     {| heap := fun a => if Nat.eqb a (fresh st) then cs else heap st a;
        fresh := S (fresh st); bound := fresh st; out := out st |}).

(** [def __init__(self)], in a world [w] *)
Definition __init__ (w : World) : machine :=
  {| heap := fun _ => []; fresh := 1; bound := 0; out := w |}.

(** [def add_command(self, regex, types, func) -> bool] *)
Definition add_command (regex : matcher) (types : option (list pytype))
           (func : Callable) : M bool :=
  cs <- read_commands ;;
  if Nat.eqb (length (filter (fun e => matcher_eqb (entry_matcher e) regex) cs)) 0
  then append_commands (regex, types, func) ;;; ret true
  else ret false.

(** [def remove_command(self, regex) -> bool] *)
Definition remove_command (regex : matcher) : M bool :=
  cs <- read_commands ;;
  let commands' := filter (fun c => negb (matcher_eqb (entry_matcher c) regex)) cs in
  let result := commands_eqb commands' cs in
  rebind_commands commands' ;;;
  ret result.

(** The body of the [try] of [try_convert]. *)
Definition try_convert_body (item : group) (target_type : pytype) : M value :=
  match target_type with
  | Tint =>
      match item with
      | Some s => match int_of_str s with
                  | Some z => ret (VInt z)
                  | None => raise ValueError
                  end
      | None => raise TypeError
      end
  | Tfloat =>
      match item with
      | Some s => match float_of_str s with
                  | Some f => ret (VFloat f)
                  | None => raise ValueError
                  end
      | None => raise TypeError
      end
  | Tbool =>
      match item with
      | Some s => ret (VBool (negb (String.eqb s "")))
      | None => ret (VBool false)
      end
  | Tstr =>
      match item with
      | Some s => ret (VStr s)
      | None => ret (VStr "None")
      end
  | Tclass c => construct c item
  | Tcallable c => construct c item
  | Tother _ => raise ValueError
  end.

(** [try_convert] with its [except Exception]. *)
Definition try_convert (item : group) (target_type : pytype) : M value :=
  fun st =>
    match try_convert_body item target_type st with
    | (Return v, st') => (Return v, st')
    | (Raise e, st') => (if is_Exception e then Raise ValueError else Raise e, st')
    end.

Fixpoint convert_item (item : group) (target_types : list pytype)
  : M (option value) :=
  match target_types with
  | [] => ret None
  | target_type :: rest =>
      converted_item <- try_convert item target_type ;;
      if negb (is_None converted_item)
      then ret (Some converted_item)
      else convert_item item rest
  end.

Fixpoint type_check_loop (input_list : list group) (target_types : list pytype)
         (result : list value) : M (list value) :=
  match input_list with
  | [] => ret result
  | item :: rest =>
      r <- convert_item item target_types ;;
      match r with
      | Some converted_item =>
          type_check_loop rest target_types (result ++ [converted_item])
      | None => type_check_loop rest target_types result
      end
  end.

(** [@staticmethod def type_check(input_list, target_types)] *)
Definition type_check (input_list : list group)
           (target_types : option (list pytype)) : M (list value) :=
  match target_types with
  | None =>
      if Nat.eqb (length input_list) 0 then ret [] else raise ValueError
  | Some tys => type_check_loop input_list tys []
  end.

(** One turn of the loop of [get], inside its [try]. *)
Definition get_try (command : string) (e : entry)
  : M (option (option Callable * option (list value))) :=
  let '(regex, types, func) := e in
  match regex with
  | MPattern p =>
      m <- lift (re_match p command) ;;
      match m with
      | Some groups =>
          args <- type_check groups types ;;
          ret (Some (Some func, Some args))
      | None => ret None
      end
  | MStr s =>
      if String.eqb s command
      then ret (Some (Some func, None))
      else ret None
  end.

(** The turn with its [except ValueError: ...]. *)
Definition get_turn (command : string) (e : entry)
  : M (option (option Callable * option (list value))) :=
  fun st =>
    match get_try command e st with
    | (Return r, st') => (Return r, st')
    | (Raise ex, st') =>
        (if is_ValueError ex then Return None else Raise ex, st')
    end.

(** The [for] loop of [get] over the list object at address [a], about
    to read index [i]; the list is read again at every turn.  [None]
    when [turns] turns were not enough. *)
Fixpoint get_loop (turns : nat) (command : string) (a i : nat) (st : machine)
  : option (outcome (option Callable * option (list value)) * machine) :=
  match turns with
  | 0 => None
  | S turns' =>
      match nth_error (heap st a) i with
      | None => Some (Return (None, None), st)
      | Some e =>
          match get_turn command e st with
          | (Return (Some found), st') => Some (Return found, st')
          | (Return None, st') => get_loop turns' command a (S i) st'
          | (Raise ex, st') => Some (Raise ex, st')
          end
      end
  end.

(** [def get(self, command)] *)
Definition get (turns : nat) (command : string) (st : machine)
  : option (outcome (option Callable * option (list value)) * machine) :=
  get_loop turns command (bound st) 0 st.

(** The call [func( *params )]. *)
Definition call_star (func : Callable) (params : option (list value)) : M value :=
  match params with
  | Some args => invoke func args
  | None => raise TypeError
  end.

(** [def handle(self, command)] *)
Definition handle (turns : nat) (command : string) (st : machine)
  : option (outcome (bool * value) * machine) :=
  match get turns command st with
  | None => None
  | Some (Raise ex, st') => Some (Raise ex, st')
  | Some (Return (Some f, params), st') =>
      Some ((r <- call_star f params ;; ret (true, r)) st')
  | Some (Return (None, _), st') => Some (Return (false, VNone), st')
  end.

(** [def _run(self, func, args)] *)
Definition _run (func : Callable) (args : list value) : M value :=
  call_star func (Some args).

(** [def __call__(self, command)] *)
Definition __call__ (turns : nat) (command : string) (st : machine)
  : option (outcome (bool * value) * machine) :=
  handle turns command st.

(** A step of the machine that leaves every list object and the binding
    of [self.commands] as they were. *)
Definition same_registry (st st' : machine) : Prop :=
  bound st' = bound st /\ forall a, heap st' a = heap st a.

(** The computation [c] takes every machine to one related to it by [R]. *)
Definition preserves (R : machine -> machine -> Prop) {A} (c : M A) : Prop :=
  forall st, R st (snd (c st)).

Definition keeps {A} (c : M A) : Prop := preserves same_registry c.

End Methods.
End Reentrant.

(* ================================================================== *)
(** ** A concrete runtime and the commands of the [__main__] block

    Enough of Python to run the driver's commands except [div]: patterns
    made of literal characters and capture-all groups, [int] on signed decimal
    literals, handlers that print or compute.  The theorems below do not
    depend on it; it serves to evaluate the methods on concrete inputs. *)

Module Demo.

(** Patterns: a sequence of literal characters and capture-all groups. *)
Inductive tok : Type :=
| Lit (c : ascii)
| AnyGroup.

Fixpoint lits (s : string) : list tok :=
  match s with
  | EmptyString => []
  | String c s' => Lit c :: lits s'
  end.

Definition tok_eq_dec : forall a b : tok, {a = b} + {a <> b}.
Proof. decide equality; apply ascii_dec. Defined.

Definition is_newline (c : ascii) : bool := Ascii.eqb c "010"%char.

(** Matching at the start of the input, the rest of the input being
    free; a group is greedy and gives back one character at a time; [.]
    does not match a newline.  The result lists the groups' texts. *)
Fixpoint rx (ts : list tok) : string -> option (list string) :=
  match ts with
  | [] => fun _ => Some []
  | Lit c :: ts' =>
      fun s =>
        match s with
        | String c' s' => if Ascii.eqb c c' then rx ts' s' else None
        | EmptyString => None
        end
  | AnyGroup :: ts' =>
      fix star (s : string) : option (list string) :=
        let stop := option_map (cons EmptyString) (rx ts' s) in
        match s with
        | String c s' =>
            if is_newline c then stop
            else match star s' with
                 | Some (g :: gs) => Some (String c g :: gs)
                 | _ => stop
                 end
        | EmptyString => stop
        end
  end.

(** The functions of the driver, and [absent], a converter that returns
    [None] for every argument (not in the driver). *)
Inductive fn : Type :=
| fn_echo | fn_add | fn_sub | fn_mul | fn_exit | absent.

Definition fn_eq_dec : forall a b : fn, {a = b} + {a <> b}.
Proof. decide equality. Defined.

#[export] Instance types : Types :=
  {| Pattern := list tok;
     pyfloat := Z;                 (* whole-number floats only *)
     pyobj := Empty_set;
     Callable := fn;
     World := list string;         (* the lines printed so far *)
     Pattern_eq_dec := list_eq_dec tok_eq_dec;
     pyobj_eq_dec := fun p => match p with end;
     Callable_eq_dec := fn_eq_dec |}.

Definition digit_of (c : ascii) : option Z :=
  let n := nat_of_ascii c in
  if andb (Nat.leb 48 n) (Nat.leb n 57) then Some (Z.of_nat (n - 48)) else None.

Fixpoint digits (acc : Z) (s : string) : option Z :=
  match s with
  | EmptyString => Some acc
  | String c s' =>
      match digit_of c with
      | Some d => digits (10 * acc + d) s'
      | None => None
      end
  end.

Definition unsigned_of_str (s : string) : option Z :=
  match s with
  | EmptyString => None
  | _ => digits 0 s
  end.

(** [int(s)] on an optional sign followed by ASCII digits. *)
Definition demo_int_of_str (s : string) : option Z :=
  match s with
  | String "-" s' => option_map Z.opp (unsigned_of_str s')
  | String "+" s' => unsigned_of_str s'
  | _ => unsigned_of_str s
  end.

Definition str_of_Z (z : Z) : string :=
  NilEmpty.string_of_int (Z.to_int z).

(** [str(v)], as [print] uses it *)
Definition py_str (v : value) : string :=
  match v with
  | VNone => "None"
  | VBool true => "True"
  | VBool false => "False"
  | VInt z => str_of_Z z
  | VFloat f => str_of_Z f ++ ".0"
  | VStr s => s
  | VObj o => match o with end
  end.

(** [int(v)] *)
Definition py_int (v : value) : outcome Z :=
  match v with
  | VNone => Raise TypeError
  | VBool b => Return (if b then 1 else 0)%Z
  | VInt z => Return z
  | VFloat f => Return f
  | VStr s => match demo_int_of_str s with
              | Some z => Return z
              | None => Raise ValueError
              end
  | VObj o => match o with end
  end.

Definition arith (op : Z -> Z -> Z) (args : list value) : outcome value :=
  match args with
  | [a; b] => x <- py_int a ;; y <- py_int b ;; Return (VInt (op x y))
  | _ => Raise TypeError
  end.

Definition demo_invoke (f : fn) (args : list value) (w : list string)
  : outcome value * list string :=
  match f with
  | fn_echo =>                          (* lambda s: print(s) *)
      match args with
      | [s] => (Return VNone, w ++ [py_str s])
      | _ => (Raise TypeError, w)
      end
  | fn_add => (arith Z.add args, w)     (* lambda a, b: int(a) + int(b) *)
  | fn_sub => (arith Z.sub args, w)
  | fn_mul => (arith Z.mul args, w)
  | fn_exit =>                          (* lambda: sys.exit() *)
      match args with
      | [] => (Raise (BaseExceptionOnly "SystemExit"), w)
      | _ => (Raise TypeError, w)
      end
  | absent =>
      match args with
      | [_] => (Return VNone, w)
      | _ => (Raise TypeError, w)
      end
  end.

(** Only [absent] is used as a declared type; the driver's functions
    called with one argument fail on their arity, [fn_echo] apart, whose
    printing a conversion cannot express. *)
Definition demo_construct (f : fn) (item : group) : outcome value :=
  match f with
  | absent | fn_echo => Return VNone
  | _ => Raise TypeError
  end.

#[export] Instance calls : Calls :=
  {| re_match := fun p s => option_map (map Some) (rx p s);
     int_of_str := demo_int_of_str;
     float_of_str := demo_int_of_str;
     construct := demo_construct;
     invoke := demo_invoke |}.

Definition re_compile_echo : matcher := MPattern (lits "echo " ++ [AnyGroup]).
Definition binary (name : string) : matcher :=
  MPattern (lits name ++ [Lit " "; AnyGroup; Lit " "; AnyGroup]).

(** Runs a sequence of calls, keeping the last state. *)
Definition run (cs : list call) (st : state) : state :=
  fold_left (fun s c => after c s) cs st.

(** Five of the six commands the driver registers, in its order: [echo],
    [add], [sub], [mul] and [exit].  [div] is left out: its result is a
    [float] that is not a whole number. *)
Definition calculator : state :=
  run [ Call_add_command re_compile_echo (Some [Tstr]) fn_echo;
        Call_add_command (binary "add") (Some [Tint; Tint]) fn_add;
        Call_add_command (binary "sub") (Some [Tint; Tint]) fn_sub;
        Call_add_command (binary "mul") (Some [Tint; Tint]) fn_mul;
        Call_add_command (MStr "exit") None fn_exit ]
      {| self := __init__; world := [] |}.

(** One command [add] taking a single integer. *)
Definition unary_add : entry :=
  (MPattern (lits "add " ++ [AnyGroup]), Some [Tint], fn_echo).

Definition unary_builder : state :=
  run [ Call_add_command (entry_matcher unary_add) (entry_types unary_add)
                         (entry_func unary_add) ]
      {| self := __init__; world := [] |}.

(** Two patterns that both match every input starting with [echo ],
    registered after one that does not. *)
Definition catch_all : entry := (MPattern [AnyGroup], Some [Tstr], absent).

Definition overlapping_builder : state :=
  run [ Call_add_command (binary "add") (Some [Tint; Tint]) fn_add;
        Call_add_command re_compile_echo (Some [Tstr]) fn_echo;
        Call_add_command (entry_matcher catch_all) (entry_types catch_all)
                         (entry_func catch_all) ]
      {| self := __init__; world := [] |}.

(** A command whose only argument is declared as [bool]. *)
Definition flag : entry :=
  (MPattern (lits "flag " ++ [AnyGroup]), Some [Tbool], fn_echo).

End Demo.

(* ================================================================== *)
(** ** A runtime whose only callable is [sys.exit]

    Called with at most one argument, as a declared type or as a handler,
    it raises [SystemExit], which does not derive from [Exception].  The
    patterns and [int] are those of [Demo]. *)

Module Exiting.

#[export] Instance types : Types :=
  {| Pattern := list Demo.tok;
     pyfloat := Z;
     pyobj := Empty_set;
     Callable := unit;
     World := unit;
     Pattern_eq_dec := list_eq_dec Demo.tok_eq_dec;
     pyobj_eq_dec := fun p => match p with end;
     Callable_eq_dec := fun p q => match p, q with tt, tt => left eq_refl end |}.

Definition sys_exit (args : list value) : outcome value :=
  match args with
  | [] | [_] => Raise (BaseExceptionOnly "SystemExit")
  | _ => Raise TypeError
  end.

#[export] Instance calls : Calls :=
  {| re_match := fun p s => option_map (map Some) (Demo.rx p s);
     int_of_str := Demo.demo_int_of_str;
     float_of_str := Demo.demo_int_of_str;
     construct := fun _ _ => Raise (BaseExceptionOnly "SystemExit");
     invoke := fun _ args w => (sys_exit args, w) |}.

(** Two commands that both match the input [quit]: the first declares
    [sys.exit] as the type of its group, the second has no group. *)
Definition exit_builder : state :=
  snd (add_command (MPattern (Demo.lits "quit")) None tt
        (snd (add_command (MPattern [Demo.AnyGroup]) (Some [Tclass tt]) tt
                          {| self := __init__; world := tt |}))).

End Exiting.

(* ================================================================== *)
(** ** A runtime whose callables call back

    Three functions written against an instance [builder]:
    - [grow], a handler: [def grow(): return builder.add_command("again", None, grow)];
    - [enlist], a declared type:
      [def enlist(s): builder.add_command("seen", None, enlist); return s];
    - [shout], a declared type: [def shout(s): print("shout"); return s].
    The patterns and [int] are those of [Demo]; the world is the list of
    the lines printed. *)

Module Growing.

Inductive fn : Type := grow | enlist | shout.

Definition fn_eq_dec : forall a b : fn, {a = b} + {a <> b}.
Proof. decide equality. Defined.

#[export] Instance types : Types :=
  {| Pattern := list Demo.tok;
     pyfloat := Z;
     pyobj := Empty_set;
     Callable := fn;
     World := list string;
     Pattern_eq_dec := list_eq_dec Demo.tok_eq_dec;
     pyobj_eq_dec := fun p => match p with end;
     Callable_eq_dec := fn_eq_dec |}.

Definition print (line : string) : Reentrant.M unit :=
  fun st =>
    (Return tt,
     {| Reentrant.heap := Reentrant.heap st; Reentrant.fresh := Reentrant.fresh st;
        Reentrant.bound := Reentrant.bound st;
        Reentrant.out := Reentrant.out st ++ [line] |}).

(** The functions called with one argument, as declared types are. *)
Definition growing_construct (f : fn) (item : group) : Reentrant.M value :=
  match f with
  | grow => Reentrant.raise TypeError          (* it takes no argument *)
  | enlist =>
      Reentrant.add_command (MStr "seen") None enlist ;;;
      ret (match item with Some s => VStr s | None => VNone end)
  | shout =>
      print "shout" ;;;
      ret (match item with Some s => VStr s | None => VNone end)
  end.

(** The functions called with an argument list, as handlers are. *)
Definition growing_invoke (f : fn) (args : list value) : Reentrant.M value :=
  match f, args with
  | grow, [] =>
      b <- Reentrant.add_command (MStr "again") None grow ;; ret (VBool b)
  | shout, [v] => print "shout" ;;; ret v
  | enlist, [v] => Reentrant.add_command (MStr "seen") None enlist ;;; ret v
  | _, _ => Reentrant.raise TypeError
  end.

#[export] Instance calls : Reentrant.Calls :=
  {| Reentrant.re_match := fun p s => Return (option_map (map Some) (Demo.rx p s));
     Reentrant.int_of_str := Demo.demo_int_of_str;
     Reentrant.float_of_str := Demo.demo_int_of_str;
     Reentrant.construct := growing_construct;
     Reentrant.invoke := growing_invoke |}.

(** [builder.add_command(re.compile("grow"), [], grow)] on a new instance *)
Definition grow_builder : Reentrant.machine :=
  snd (Reentrant.add_command (MPattern (Demo.lits "grow")) (Some []) grow
                             (Reentrant.__init__ [])).

(** One command whose only group is declared as [enlist]. *)
Definition enlist_builder : Reentrant.machine :=
  snd (Reentrant.add_command (MPattern [Demo.AnyGroup]) (Some [Tcallable enlist]) shout
                             (Reentrant.__init__ [])).

(** One command whose only group is declared as [shout]. *)
Definition shout_builder : Reentrant.machine :=
  snd (Reentrant.add_command (MPattern [Demo.AnyGroup]) (Some [Tcallable shout]) shout
                             (Reentrant.__init__ [])).

End Growing.

(* ================================================================== *)
(** ** Callables that stay outside the instance

    The runtime of [CommandBuilder] seen as a runtime of [Reentrant]:
    [regex.match] does not raise (the patterns are [str] patterns), a
    declared type has no side effect, a handler acts on the world only. *)

Module Outside.
Section Outside.
Context {T : Types} {C : Py.Calls}.

#[export] Instance calls : Reentrant.Calls :=
  {| Reentrant.re_match := fun p s => Return (Py.re_match p s);
     Reentrant.int_of_str := Py.int_of_str;
     Reentrant.float_of_str := Py.float_of_str;
     Reentrant.construct := fun c item st => (Py.construct c item, st);
     Reentrant.invoke := fun f args st =>
       let (r, w) := Py.invoke f args (Reentrant.out st) in
       (r, {| Reentrant.heap := Reentrant.heap st; Reentrant.fresh := Reentrant.fresh st;
              Reentrant.bound := Reentrant.bound st; Reentrant.out := w |}) |}.

(** The machine [m] holds the entries and the world of the state [st]. *)
Definition models (m : Reentrant.machine) (st : state) : Prop :=
  Reentrant.entries m = commands (self st) /\ Reentrant.out m = world st.

End Outside.
End Outside.

(* ================================================================== *)
(** ** Vocabulary of the statements *)

Section Vocabulary.
Context {T : Types} {C : Calls}.

(** What the conversions may raise: [ValueError], or an exception that
    [except Exception] does not catch. *)
Definition escapes (ex : exn) : Prop := ex = ValueError \/ is_Exception ex = false.

(** The entry yields [found]: an exact string equal to the input, or a
    pattern that matches and whose groups are converted. *)
Definition accepts (command : string) (e : entry)
           (found : option Callable * option (list value)) : Prop :=
  get_turn command e = Return (Some found).

(** The entry is passed over. *)
Definition rejects (command : string) (e : entry) : Prop :=
  get_turn command e = Return None.

(** [bool(item)] for an element of [match.groups()] *)
Definition truth (item : group) : bool :=
  match item with
  | Some s => negb (String.eqb s "")
  | None => false
  end.

(** The declared types [try_convert] handles itself: [int], [float],
    [bool], [str]. *)
Definition builtin (t : pytype) : bool :=
  match t with
  | Tint | Tfloat | Tbool | Tstr => true
  | _ => false
  end.

(** The declared types [try_convert] calls: classes and other callables. *)
Definition custom (t : pytype) : bool :=
  match t with
  | Tclass _ | Tcallable _ => true
  | _ => false
  end.

(** No declared type of the entry is called during conversion. *)
Definition plain (e : entry) : bool :=
  match entry_types e with
  | Some tys => forallb (fun t => negb (custom t)) tys
  | None => true
  end.

(** [str(item)] for an element of [match.groups()] *)
Definition text (item : group) : string :=
  match item with
  | Some s => s
  | None => "None"
  end.

End Vocabulary.

(* ================================================================== *)
(** ** Properties *)

Section Properties.
Context {T : Types} {C : Calls}.

(** *** Lists *)

Lemma filter_id_forallb {A} (p : A -> bool) (l : list A) :
  filter p l = l <-> forallb p l = true.
Proof.
  induction l as [|a l IH]; simpl.
  - tauto.
  - destruct (p a) eqn:Hp; simpl.
    + rewrite <- IH. split; intros H; congruence.
    + split; [|discriminate].
      intros H. pose proof (filter_length_le p l) as Hle.
      rewrite H in Hle. simpl in Hle. lia.
Qed.

Lemma commands_eqb_filter (p : entry -> bool) (cs : list entry) :
  commands_eqb (filter p cs) cs = forallb p cs.
Proof.
  unfold commands_eqb.
  destruct (list_eq_dec entry_eq_dec (filter p cs) cs) as [E|E];
    destruct (forallb p cs) eqn:F; try reflexivity.
  - apply filter_id_forallb in E. congruence.
  - apply filter_id_forallb in F. contradiction.
Qed.

Lemma matcher_eqb_eq (a b : matcher) : matcher_eqb a b = true <-> a = b.
Proof.
  unfold matcher_eqb. destruct (matcher_eq_dec a b); split; congruence.
Qed.

Lemma matcher_eqb_refl (a : matcher) : matcher_eqb a a = true.
Proof. now apply matcher_eqb_eq. Qed.

Lemma matcher_eqb_neq (a b : matcher) : matcher_eqb a b = false <-> a <> b.
Proof.
  unfold matcher_eqb. destruct (matcher_eq_dec a b); split; congruence.
Qed.

(** The test of [add_command]: the list comprehension is empty exactly
    when the matcher is not registered. *)
Lemma no_equal_matcher (regex : matcher) (cs : list entry) :
  Nat.eqb (length (filter (fun e => matcher_eqb (entry_matcher e) regex) cs)) 0 = true
  <-> ~ In regex (map entry_matcher cs).
Proof.
  induction cs as [|e cs IH]; simpl.
  - tauto.
  - destruct (matcher_eqb (entry_matcher e) regex) eqn:E; simpl.
    + apply matcher_eqb_eq in E. split; [discriminate | intros H; exfalso; auto].
    + apply matcher_eqb_neq in E. rewrite IH. tauto.
Qed.

(** Filtering the entries keeps their matchers distinct. *)
Lemma filter_keeps_matchers_distinct (keep : entry -> bool) (cs : list entry) :
  NoDup (map entry_matcher cs) -> NoDup (map entry_matcher (filter keep cs)).
Proof.
  intros Hcs. induction cs as [|c cs IH]; simpl in *; [constructor|].
  apply NoDup_cons_iff in Hcs. destruct Hcs as [Hfresh Hrest].
  destruct (keep c); simpl; [|now apply IH].
  apply NoDup_cons_iff. split; [|now apply IH].
  rewrite in_map_iff. intros [c' [Heq Hin]].
  apply filter_In in Hin. apply Hfresh.
  rewrite in_map_iff. exists c'. tauto.
Qed.

(** *** Running [get] *)

Lemma get_unfold (command : string) (st : state) :
  get command st = (get_loop command (commands (self st)), st).
Proof. reflexivity. Qed.

(** Entries that yield nothing are passed over. *)
Lemma get_loop_skip (command : string) (pre rest : list entry) :
  (forall e, In e pre -> get_turn command e = Return None) ->
  get_loop command (pre ++ rest) = get_loop command rest.
Proof.
  induction pre as [|e pre IH]; simpl; intros H.
  - reflexivity.
  - rewrite (H e) by auto. simpl. apply IH. intros; apply H; auto.
Qed.

Lemma try_convert_raises item target_type ex :
  try_convert item target_type = Raise ex -> escapes ex.
Proof.
  unfold try_convert, escapes.
  destruct (try_convert_body item target_type) as [v|e]; [discriminate|].
  destruct (is_Exception e) eqn:E; intros H; inversion H; subst; auto.
Qed.

Lemma convert_item_raises item tys ex :
  convert_item item tys = Raise ex -> escapes ex.
Proof.
  induction tys as [|ty tys IH]; simpl; [discriminate|].
  destruct (try_convert item ty) as [v|e] eqn:E; simpl.
  - destruct (is_None v); simpl; [assumption | discriminate].
  - intros H; inversion H; subst. eapply try_convert_raises; eassumption.
Qed.

Lemma type_check_loop_raises input_list tys acc ex :
  type_check_loop input_list tys acc = Raise ex -> escapes ex.
Proof.
  revert acc. induction input_list as [|item rest IH]; simpl; intros acc.
  - discriminate.
  - destruct (convert_item item tys) as [[v|]|e] eqn:E; simpl.
    + apply IH.
    + apply IH.
    + intros H; inversion H; subst. eapply convert_item_raises; eassumption.
Qed.

Lemma type_check_raises input_list target_types ex :
  type_check input_list target_types = Raise ex -> escapes ex.
Proof.
  destruct target_types as [tys|]; simpl.
  - apply type_check_loop_raises.
  - destruct (Nat.eqb (length input_list) 0); [discriminate|].
    intros H; inversion H; left; reflexivity.
Qed.

Lemma get_try_raises command e ex :
  get_try command e = Raise ex -> escapes ex.
Proof.
  destruct e as [[[s|p] types] func]; simpl.
  - destruct (String.eqb s command); discriminate.
  - destruct (re_match p command) as [groups|]; [|discriminate].
    destruct (type_check groups types) as [args|e] eqn:E; simpl; [discriminate|].
    intros H; inversion H; subst. eapply type_check_raises; eassumption.
Qed.

Lemma get_turn_raises command e ex :
  get_turn command e = Raise ex -> is_Exception ex = false.
Proof.
  unfold get_turn.
  destruct (get_try command e) as [r|e'] eqn:E; [discriminate|].
  destruct (is_ValueError e') eqn:V; [discriminate|].
  intros H; inversion H; subst.
  destruct (get_try_raises _ _ _ E) as [->|]; [discriminate | assumption].
Qed.

Lemma get_loop_raises command cs ex :
  get_loop command cs = Raise ex -> is_Exception ex = false.
Proof.
  induction cs as [|e cs IH]; simpl; [discriminate|].
  destruct (get_turn command e) as [[found|]|e'] eqn:E; simpl.
  - discriminate.
  - assumption.
  - intros H; inversion H; subst. eapply get_turn_raises; eassumption.
Qed.

(** A returned handler belongs to a registered entry. *)
Lemma get_turn_found command e func params :
  get_turn command e = Return (Some (func, params)) -> func = Some (entry_func e).
Proof.
  unfold get_turn. destruct e as [[[s|p] types] f]; simpl.
  - destruct (String.eqb s command); intros H; inversion H; reflexivity.
  - destruct (re_match p command) as [groups|]; [|discriminate].
    destruct (type_check groups types) as [args|e]; simpl.
    + intros H; inversion H; reflexivity.
    + destruct (is_ValueError e); discriminate.
Qed.

Lemma get_loop_found command cs func params :
  get_loop command cs = Return (func, params) ->
  (func = None /\ params = None /\ forall e, In e cs -> get_turn command e = Return None)
  \/ (exists e, In e cs /\ func = Some (entry_func e)).
Proof.
  induction cs as [|e cs IH]; simpl.
  - intros H; inversion H; left; repeat split; intros e' [].
  - destruct (get_turn command e) as [[[f ps]|]|e'] eqn:E; simpl.
    + intros H; inversion H; subst. right. exists e. split; [auto|].
      eapply get_turn_found; eassumption.
    + intros H. destruct (IH H) as [[-> [-> Hall]]|[e0 [Hin ->]]].
      * left. repeat split. intros e0 [<-|Hin]; auto.
      * right. exists e0; auto.
    + discriminate.
Qed.

(** *** What a turn of the search can end in *)

Lemma rejects_iff (command : string) (e : entry) :
  rejects command e <->
  match entry_matcher e with
  | MStr s => s <> command
  | MPattern p =>
      re_match p command = None \/
      exists groups, re_match p command = Some groups /\
                     type_check groups (entry_types e) = Raise ValueError
  end.
Proof.
  unfold rejects, get_turn, entry_matcher, entry_types.
  destruct e as [[[s|p] types] func]; simpl.
  - destruct (String.eqb_spec s command); split; congruence.
  - destruct (re_match p command) as [groups|]; simpl.
    + destruct (type_check groups types) as [args|ex] eqn:E; simpl.
      * split; [discriminate|].
        intros [H|[g [H1 H2]]]; [discriminate H|]. congruence.
      * destruct ex; simpl; split; try discriminate;
          try (intros [H|[g [H1 H2]]]; [discriminate H|]; congruence).
        intros _. right. eauto.
    + split; auto.
Qed.

Lemma accepts_iff (command : string) (e : entry) found :
  accepts command e found <->
  match entry_matcher e with
  | MStr s => s = command /\ found = (Some (entry_func e), None)
  | MPattern p =>
      exists groups args,
        re_match p command = Some groups /\
        type_check groups (entry_types e) = Return args /\
        found = (Some (entry_func e), Some args)
  end.
Proof.
  unfold accepts, get_turn, entry_matcher, entry_types, entry_func.
  destruct e as [[[s|p] types] func]; simpl.
  - destruct (String.eqb_spec s command); split.
    + intros H; inversion H; auto.
    + intros [_ ->]; reflexivity.
    + discriminate.
    + intros [? _]; contradiction.
  - destruct (re_match p command) as [groups|]; simpl.
    + destruct (type_check groups types) as [args|ex] eqn:E; simpl; split.
      * intros H; inversion H; eauto.
      * intros [g [a [H1 [H2 ->]]]]. congruence.
      * destruct (is_ValueError ex); discriminate.
      * intros [g [a [H1 [H2 _]]]]. congruence.
    + split; [discriminate | intros [g [a [H _]]]; discriminate].
Qed.

Lemma handle_unfold (command : string) (st : state) :
  handle command st =
  match get_loop command (commands (self st)) with
  | Return (Some f, params) =>
      (r <- call_star f params ;; ret (true, r)) st
  | Return (None, _) => (Return (false, VNone), st)
  | Raise ex => (Raise ex, st)
  end.
Proof.
  unfold handle. simpl.
  destruct (get_loop command (commands (self st))) as [[[f|] params]|ex];
    reflexivity.
Qed.

Lemma call_star_self (f : Callable) params (st : state) :
  self (snd (call_star f params st)) = self st.
Proof.
  unfold call_star. destruct params as [args|]; simpl; [|reflexivity].
  destruct (invoke f args (world st)); reflexivity.
Qed.

Lemma handle_self (command : string) (st : state) :
  self (snd (handle command st)) = self st.
Proof.
  rewrite handle_unfold.
  destruct (get_loop command (commands (self st))) as [[[f|] params]|ex];
    try reflexivity.
  simpl. pose proof (call_star_self f params st) as H.
  destruct (call_star f params st) as [[r|ex] st']; exact H.
Qed.

Lemma add_command_fresh regex types func (st : state) :
  ~ In regex (matchers st) ->
  add_command regex types func st =
  (Return true,
   {| self := {| commands := commands (self st) ++ [(regex, types, func)] |};
      world := world st |}).
Proof.
  intros H. apply no_equal_matcher in H.
  unfold add_command. simpl. rewrite H. reflexivity.
Qed.

Lemma add_command_duplicate regex types func (st : state) :
  In regex (matchers st) ->
  add_command regex types func st = (Return false, st).
Proof.
  intros H. unfold add_command. simpl.
  destruct (Nat.eqb _ 0) eqn:E; [|reflexivity].
  apply no_equal_matcher in E. contradiction.
Qed.

Lemma remove_command_commands regex (st : state) :
  commands (self (snd (remove_command regex st))) =
  filter (fun c => negb (matcher_eqb (entry_matcher c) regex)) (commands (self st)).
Proof. reflexivity. Qed.

Lemma add_command_NoDup regex types func (st : state) :
  NoDup (matchers st) ->
  NoDup (matchers (snd (add_command regex types func st))).
Proof.
  intros H. destruct (in_dec matcher_eq_dec regex (matchers st)) as [Hin|Hin].
  - rewrite add_command_duplicate by assumption. exact H.
  - rewrite add_command_fresh by assumption. unfold matchers in *; simpl.
    rewrite map_app. simpl.
    apply NoDup_incl_NoDup with (l := regex :: map entry_matcher (commands (self st))).
    + constructor; assumption.
    + rewrite length_app; simpl; lia.
    + intros x [<-|Hx]; apply in_or_app; simpl; auto.
Qed.

Lemma remove_command_NoDup regex (st : state) :
  NoDup (matchers st) ->
  NoDup (matchers (snd (remove_command regex st))).
Proof.
  intros H. unfold matchers. rewrite remove_command_commands.
  now apply filter_keeps_matchers_distinct.
Qed.

Lemma after_commands (c : call) (st : state) :
  match c with
  | Call_add_command _ _ _ | Call_remove_command _ => True
  | _ => self (after c st) = self st
  end.
Proof.
  destruct c; simpl; auto; try apply handle_self.
Qed.

End Properties.

(* ================================================================== *)
(** ** The operations of the registry *)

Section Operations.
Context {T : Types} {C : Calls}.

(** C1.  When the first entry that accepts the input is an exact-string
    matcher, [get] resolves its handler with the argument list [None],
    and [handle] then raises [TypeError] while unpacking it: the handler
    is not entered, no [(True, result)] pair is returned, and the state
    is as before. *)
Theorem handle_exact_string_raises
        (command : string) (st : state) pre types func post :
  commands (self st) = pre ++ (MStr command, types, func) :: post ->
  (forall e, In e pre -> rejects command e) ->
  get command st = (Return (Some func, None), st) /\
  handle command st = (Raise TypeError, st).
Proof.
  intros Hcs Hpre.
  assert (Hloop : get_loop command (commands (self st)) = Return (Some func, None)).
  { rewrite Hcs, (get_loop_skip command pre _ Hpre). simpl.
    unfold get_turn. simpl. rewrite String.eqb_refl. reflexivity. }
  split.
  - rewrite get_unfold, Hloop. reflexivity.
  - rewrite handle_unfold, Hloop. reflexivity.
Qed.

(** C2.  When converting a captured string to a declared type raises,
    [type_check] raises at once, whatever declared types follow: the
    string is not tried against the next declared type. *)
Theorem type_check_stops_at_first_failure
        (item : group) (target_type : pytype) (ex : exn) :
  try_convert item target_type = Raise ex ->
  forall rest_types rest_items,
    type_check (item :: rest_items) (Some (target_type :: rest_types)) = Raise ex.
Proof.
  intros H rest_types rest_items. simpl. rewrite H. reflexivity.
Qed.

(** C3.  [remove_command] drops every entry with the given matcher and
    returns [True] exactly when the list it leaves equals the list it
    found, that is when the matcher was not registered; it returns
    [False] when an entry was removed. *)
Theorem remove_command_result (regex : matcher) (st : state) :
  exists b : bool,
    remove_command regex st =
    (Return b,
     {| self := {| commands :=
                    filter (fun c => negb (matcher_eqb (entry_matcher c) regex))
                           (commands (self st)) |};
        world := world st |}) /\
    (b = true <-> commands (self (snd (remove_command regex st))) = commands (self st)) /\
    (b = true <-> ~ In regex (matchers st)) /\
    (b = false <->
     length (commands (self (snd (remove_command regex st))))
     < length (commands (self st))).
Proof.
  set (p := fun c : entry => negb (matcher_eqb (entry_matcher c) regex)).
  exists (forallb p (commands (self st))).
  assert (Hdef : remove_command regex st =
                 (Return (forallb p (commands (self st))),
                  {| self := {| commands := filter p (commands (self st)) |};
                     world := world st |})).
  { unfold remove_command. simpl. fold p. now rewrite commands_eqb_filter. }
  rewrite Hdef. simpl.
  split; [reflexivity|]. split; [|split].
  - symmetry. apply filter_id_forallb.
  - rewrite forallb_forall. unfold matchers. rewrite in_map_iff. subst p.
    split.
    + intros H [e [He Hin]]. specialize (H e Hin).
      rewrite <- He, matcher_eqb_refl in H. discriminate.
    + intros H e Hin. destruct (matcher_eqb (entry_matcher e) regex) eqn:E; auto.
      apply matcher_eqb_eq in E. exfalso. apply H. eauto.
  - pose proof (filter_length_le p (commands (self st))) as Hle.
    pose proof (filter_length_forallb p (commands (self st))) as Hall.
    destruct (forallb p (commands (self st))) eqn:F.
    + apply filter_id_forallb in F. rewrite F. split; [discriminate | lia].
    + split; [intros _ | reflexivity].
      destruct (Nat.eq_dec (length (filter p (commands (self st))))
                           (length (commands (self st)))) as [E|E];
        [apply Hall in E; discriminate | lia].
Qed.

(** C4.  The [ValueError] of a failed conversion or of an argument-count
    mismatch never leaves [get]: no exception deriving from [Exception]
    does; a matching pattern entry whose coercion fails is passed over
    and the search goes on with the next entry; and when every entry
    is passed over (no match, or a match that fails coercion), [get]
    returns [(None, None)] and [handle] returns [(False, None)]. *)
Theorem coercion_failure_is_no_match (command : string) (st : state) :
  (forall ex, fst (get command st) = Raise ex -> is_Exception ex = false) /\
  (forall p types func groups rest,
      re_match p command = Some groups ->
      type_check groups types = Raise ValueError ->
      get_loop command ((MPattern p, types, func) :: rest) = get_loop command rest) /\
  ((forall e, In e (commands (self st)) ->
              match entry_matcher e with
              | MStr s => s <> command
              | MPattern p =>
                  re_match p command = None \/
                  exists groups, re_match p command = Some groups /\
                                 type_check groups (entry_types e) = Raise ValueError
              end) ->
   get command st = (Return (None, None), st) /\
   handle command st = (Return (false, VNone), st)).
Proof.
  split; [|split].
  - intros ex. rewrite get_unfold. simpl. apply get_loop_raises.
  - intros p types func groups rest Hm Ht. simpl.
    unfold get_turn. simpl. rewrite Hm, Ht. reflexivity.
  - intros Hall.
    assert (Hloop : get_loop command (commands (self st)) = Return (None, None)).
    { rewrite <- (app_nil_r (commands (self st))).
      rewrite get_loop_skip; [reflexivity|].
      intros e Hin. apply (proj2 (rejects_iff command e)). exact (Hall e Hin). }
    split.
    + rewrite get_unfold, Hloop. reflexivity.
    + rewrite handle_unfold, Hloop. reflexivity.
Qed.

(** C5.  In every state reachable from a fresh instance no two entries
    have the same matcher.  [add_command] appends the entry and returns
    [True] when the matcher is not registered, and returns [False]
    without touching the state when it is; [remove_command] keeps the
    matchers distinct; adding two distinct unregistered matchers succeeds
    twice, adding the same one twice succeeds only the first time. *)
Theorem matchers_are_unique :
  (forall st, reachable st -> NoDup (matchers st)) /\
  (forall st regex types func,
      ~ In regex (matchers st) ->
      add_command regex types func st =
      (Return true,
       {| self := {| commands := commands (self st) ++ [(regex, types, func)] |};
          world := world st |})) /\
  (forall st regex types func,
      In regex (matchers st) ->
      add_command regex types func st = (Return false, st)) /\
  (forall st regex,
      NoDup (matchers st) -> NoDup (matchers (snd (remove_command regex st)))) /\
  (forall st m1 t1 f1 m2 t2 f2,
      ~ In m1 (matchers st) -> ~ In m2 (matchers st) -> m1 <> m2 ->
      fst (add_command m1 t1 f1 st) = Return true /\
      fst (add_command m2 t2 f2 (snd (add_command m1 t1 f1 st))) = Return true) /\
  (forall st m1 t1 f1 t2 f2,
      ~ In m1 (matchers st) ->
      fst (add_command m1 t1 f1 st) = Return true /\
      add_command m1 t2 f2 (snd (add_command m1 t1 f1 st)) =
      (Return false, snd (add_command m1 t1 f1 st))).
Proof.
  repeat split.
  - intros st H. induction H as [w|c st H IH].
    + constructor.
    + pose proof (after_commands c st) as Hc.
      destruct c; try (unfold matchers; rewrite Hc; exact IH).
      * now apply add_command_NoDup.
      * now apply remove_command_NoDup.
  - intros; now apply add_command_fresh.
  - intros; now apply add_command_duplicate.
  - intros; now apply remove_command_NoDup.
  - rewrite add_command_fresh by assumption. reflexivity.
  - rewrite (add_command_fresh m1) by assumption.
    rewrite add_command_fresh; [reflexivity|].
    unfold matchers; simpl. rewrite map_app, in_app_iff. simpl.
    unfold matchers in *. intros [?|[?|[]]]; auto.
  - rewrite add_command_fresh by assumption. reflexivity.
  - rewrite (add_command_fresh m1 t1) by assumption.
    apply add_command_duplicate.
    unfold matchers; simpl. rewrite map_app, in_app_iff. simpl. auto.
Qed.

End Operations.

(* ================================================================== *)
(** ** Search order, frame and conversions *)

Section Search.
Context {T : Types} {C : Calls}.

Lemma convert_item_bool (item : group) (rest_types : list pytype) :
  convert_item item (Tbool :: rest_types) = Return (Some (VBool (truth item))).
Proof. destruct item; reflexivity. Qed.

Lemma type_check_loop_bool (input_list : list group) rest_types acc :
  type_check_loop input_list (Tbool :: rest_types) acc =
  Return (acc ++ map (fun item => VBool (truth item)) input_list).
Proof.
  revert acc. induction input_list as [|item rest IH]; intros acc.
  - simpl. now rewrite app_nil_r.
  - cbn [type_check_loop]. rewrite convert_item_bool. cbn [bind outcome_Monad].
    rewrite IH, <- app_assoc. reflexivity.
Qed.

(** C6.  The entries are examined in the order of the list, which is the
    order of registration, and the first one that accepts the input
    decides: [get] returns its handler and arguments and [handle] calls
    that handler, whatever entries follow it. *)
Theorem first_accepting_entry_wins
        (command : string) (st : state) pre e post found :
  commands (self st) = pre ++ e :: post ->
  (forall e', In e' pre -> rejects command e') ->
  accepts command e found ->
  get command st = (Return found, st) /\
  fst found = Some (entry_func e) /\
  handle command st =
  (r <- call_star (entry_func e) (snd found) ;; ret (true, r)) st.
Proof.
  intros Hcs Hpre Hacc.
  assert (Hloop : get_loop command (commands (self st)) = Return found).
  { rewrite Hcs, (get_loop_skip command pre _ Hpre). simpl.
    unfold accepts in Hacc. rewrite Hacc. reflexivity. }
  destruct found as [func params].
  pose proof (get_turn_found _ _ _ _ Hacc) as ->.
  repeat split.
  - rewrite get_unfold, Hloop. reflexivity.
  - rewrite handle_unfold, Hloop. reflexivity.
Qed.

(** C7.  [__repr__] reports the number of entries, followed by
    [commands] when there is exactly one entry and by [command] for any
    other count. *)
Theorem repr_suffix :
  (forall st : state,
      __repr__ st =
      (Return ("<CommandBuilder commands: "
                 ++ str_of_nat (length (commands (self st)))
                 ++ (if Nat.eqb (length (commands (self st))) 1
                     then " commands>" else " command>"))%string,
       st)) /\
  (forall (e : entry) w,
      fst (__repr__ {| self := {| commands := [e] |}; world := w |})
      = Return "<CommandBuilder commands: 1 commands>") /\
  (forall (e1 e2 : entry) w,
      fst (__repr__ {| self := {| commands := [e1; e2] |}; world := w |})
      = Return "<CommandBuilder commands: 2 command>") /\
  (forall w,
      fst (__repr__ {| self := __init__; world := w |})
      = Return "<CommandBuilder commands: 0 command>").
Proof.
  repeat split.
  intros st. unfold __repr__. simpl.
  destruct (Nat.eqb (length (commands (self st))) 1); reflexivity.
Qed.

(** C9.  Calling the instance is calling [handle]: same result, same
    final state. *)
Theorem call_is_handle (command : string) (st : state) :
  __call__ command st = handle command st.
Proof. reflexivity. Qed.

(** C10.  Conversion to [bool] never raises: it gives [False] for the
    empty string and [True] for any other string, the text [False]
    included.  Hence with [bool] as first declared type [type_check]
    converts every group, and a pattern entry that matches is never
    passed over. *)
Theorem bool_conversion_never_fails :
  (forall s, try_convert (Some s) Tbool = Return (VBool (negb (String.eqb s "")))) /\
  (forall s, try_convert (Some s) Tbool = Return (VBool false) <-> s = "") /\
  (forall s, try_convert (Some s) Tbool = Return (VBool true) <-> s <> "") /\
  try_convert (Some "False") Tbool = Return (VBool true) /\
  (forall input_list rest_types,
      type_check input_list (Some (Tbool :: rest_types)) =
      Return (map (fun item => VBool (truth item)) input_list)) /\
  (forall command p rest_types func groups,
      re_match p command = Some groups ->
      accepts command (MPattern p, Some (Tbool :: rest_types), func)
              (Some func, Some (map (fun item => VBool (truth item)) groups))).
Proof.
  split; [reflexivity|]. split; [|split; [|split; [reflexivity|split]]].
  - intros s. unfold try_convert; simpl.
    destruct (String.eqb_spec s ""); simpl; split; congruence.
  - intros s. unfold try_convert; simpl.
    destruct (String.eqb_spec s ""); simpl; split; congruence.
  - intros input_list rest_types. simpl. apply type_check_loop_bool.
  - intros command p rest_types func groups Hm.
    unfold accepts, get_turn. simpl. rewrite Hm, type_check_loop_bool. reflexivity.
Qed.

End Search.

(* ================================================================== *)
(** ** Coercion: edge cases of [type_check] *)

Section Coercion.
Context {T : Types} {C : Calls}.

Lemma try_convert_builtin (item : group) (t : pytype) :
  builtin t = true ->
  (exists v, try_convert item t = Return v /\ is_None v = false)
  \/ try_convert item t = Raise ValueError.
Proof.
  unfold try_convert.
  destruct t; try discriminate; intros _; destruct item as [s|]; simpl;
    try (left; eexists; split; reflexivity);
    try (right; reflexivity).
  - destruct (int_of_str s); simpl; [left; eexists; split; reflexivity | right; reflexivity].
  - destruct (float_of_str s); simpl; [left; eexists; split; reflexivity | right; reflexivity].
Qed.

Lemma convert_item_builtin (item : group) (t : pytype) (ts : list pytype) :
  builtin t = true ->
  convert_item item (t :: ts) =
  match try_convert item t with
  | Return v => Return (Some v)
  | Raise ex => Raise ex
  end.
Proof.
  intros Hb. simpl.
  destruct (try_convert_builtin item t Hb) as [[v [-> Hv]]| ->]; simpl.
  - now rewrite Hv.
  - reflexivity.
Qed.

Lemma type_check_loop_builtin (input_list : list group) t ts acc :
  builtin t = true ->
  type_check_loop input_list (t :: ts) acc = type_check_loop input_list [t] acc.
Proof.
  intros Hb. revert acc.
  induction input_list as [|item rest IH]; intros acc; [reflexivity|].
  cbn [type_check_loop]. rewrite !(convert_item_builtin item t _ Hb).
  destruct (try_convert item t) as [v|ex]; simpl; [apply IH | reflexivity].
Qed.

Lemma type_check_loop_builtin_values (input_list : list group) t acc values :
  builtin t = true ->
  type_check_loop input_list [t] acc = Return values ->
  exists vs, values = acc ++ vs /\
             Forall2 (fun item v => try_convert item t = Return v) input_list vs.
Proof.
  intros Hb. revert acc.
  induction input_list as [|item rest IH]; intros acc.
  - simpl. intros H; inversion H; subst. exists []. rewrite app_nil_r. auto.
  - cbn [type_check_loop]. rewrite (convert_item_builtin item t _ Hb).
    destruct (try_convert item t) as [v|ex] eqn:E; simpl; [|discriminate].
    intros H. destruct (IH _ H) as [vs [-> Hvs]].
    exists (v :: vs). rewrite <- app_assoc. simpl. auto.
Qed.

Lemma type_check_loop_builtin_raises (input_list : list group) t acc ex :
  builtin t = true ->
  type_check_loop input_list [t] acc = Raise ex -> ex = ValueError.
Proof.
  intros Hb. revert acc.
  induction input_list as [|item rest IH]; intros acc; [discriminate|].
  cbn [type_check_loop]. rewrite (convert_item_builtin item t _ Hb).
  destruct (try_convert_builtin item t Hb) as [[v [-> _]]| ->]; simpl.
  - apply IH.
  - intros H; inversion H; reflexivity.
Qed.

(** X1.  When the first declared type is one of [int], [float], [bool],
    [str], the declared types after it are never consulted: [type_check]
    gives what it gives with that type alone.  On success every group is
    converted by that type, one value per group in capture order; the
    only exception it can raise is [ValueError]. *)
Theorem first_builtin_type_decides
        (t : pytype) (rest_types : list pytype) (input_list : list group) :
  builtin t = true ->
  type_check input_list (Some (t :: rest_types)) = type_check input_list (Some [t]) /\
  (forall values,
      type_check input_list (Some (t :: rest_types)) = Return values ->
      length values = length input_list /\
      Forall2 (fun item v => try_convert item t = Return v) input_list values) /\
  (forall ex,
      type_check input_list (Some (t :: rest_types)) = Raise ex -> ex = ValueError).
Proof.
  intros Hb. simpl. rewrite (type_check_loop_builtin _ _ rest_types _ Hb).
  split; [reflexivity|]. split.
  - intros values H.
    destruct (type_check_loop_builtin_values _ _ _ _ Hb H) as [vs [-> Hvs]].
    simpl. split; [|exact Hvs].
    symmetry. eapply Forall2_length; eassumption.
  - intros ex. apply type_check_loop_builtin_raises; assumption.
Qed.

Lemma convert_item_str (item : group) (rest_types : list pytype) :
  convert_item item (Tstr :: rest_types) = Return (Some (VStr (text item))).
Proof. destruct item; reflexivity. Qed.

Lemma type_check_loop_str (input_list : list group) rest_types acc :
  type_check_loop input_list (Tstr :: rest_types) acc =
  Return (acc ++ map (fun item => VStr (text item)) input_list).
Proof.
  revert acc. induction input_list as [|item rest IH]; intros acc.
  - simpl. now rewrite app_nil_r.
  - cbn [type_check_loop]. rewrite convert_item_str. cbn [bind outcome_Monad].
    rewrite IH, <- app_assoc. reflexivity.
Qed.

(** X2.  With [str] as first declared type [type_check] never fails: each
    group comes back as its own text, a group that took no part in the
    match as the text [None].  A pattern entry declared that way accepts
    every input its pattern matches. *)
Theorem str_conversion_never_fails
        (input_list : list group) (rest_types : list pytype) :
  type_check input_list (Some (Tstr :: rest_types)) =
  Return (map (fun item => VStr (text item)) input_list) /\
  (forall strings,
      type_check (map Some strings) (Some (Tstr :: rest_types)) =
      Return (map VStr strings)) /\
  (forall command p func,
      re_match p command = Some input_list ->
      accepts command (MPattern p, Some (Tstr :: rest_types), func)
              (Some func, Some (map (fun item => VStr (text item)) input_list))).
Proof.
  split; [|split].
  - simpl. apply type_check_loop_str.
  - intros strings. simpl. rewrite type_check_loop_str, map_map. reflexivity.
  - intros command p func Hm. unfold accepts, get_turn. simpl.
    rewrite Hm, type_check_loop_str. reflexivity.
Qed.

Lemma type_check_loop_no_types (input_list : list group) acc :
  type_check_loop input_list [] acc = Return acc.
Proof.
  revert acc. induction input_list as [|item rest IH]; intros acc; simpl; auto.
Qed.

(** X3.  An empty list of declared types is not the same as no list: with
    [[]] every group is dropped without an error, so a matching pattern
    entry is accepted with no arguments however many groups it has, while
    with [None] the same entry is passed over as soon as there is a
    group. *)
Theorem empty_type_list_drops_every_group
        (command : string) (p : Pattern) (func : Callable) (groups : list group) :
  re_match p command = Some groups ->
  type_check groups (Some []) = Return [] /\
  accepts command (MPattern p, Some [], func) (Some func, Some []) /\
  (groups <> [] -> rejects command (MPattern p, None, func)) /\
  (groups = [] -> accepts command (MPattern p, None, func) (Some func, Some [])).
Proof.
  intros Hm. split; [apply type_check_loop_no_types|].
  unfold accepts, rejects, get_turn. simpl. rewrite Hm, type_check_loop_no_types.
  split; [reflexivity|]. split.
  - intros Hne. destruct groups; [contradiction|reflexivity].
  - intros ->. reflexivity.
Qed.

Lemma convert_item_value (item : group) (tys : list pytype) v :
  convert_item item tys = Return (Some v) -> is_None v = false.
Proof.
  induction tys as [|t tys IH]; simpl; [discriminate|].
  destruct (try_convert item t) as [w|ex]; simpl; [|discriminate].
  destruct (is_None w) eqn:E; simpl; [exact IH|].
  intros H; inversion H; subst; exact E.
Qed.

Lemma type_check_loop_values (input_list : list group) tys acc values :
  type_check_loop input_list tys acc = Return values ->
  exists vs, values = acc ++ vs /\
             length vs <= length input_list /\
             Forall (fun v => is_None v = false) vs.
Proof.
  revert acc. induction input_list as [|item rest IH]; intros acc.
  - simpl. intros H; inversion H; subst. exists []. rewrite app_nil_r. auto.
  - cbn [type_check_loop].
    destruct (convert_item item tys) as [[v|]|ex] eqn:E; simpl; [| |discriminate].
    + intros H. destruct (IH _ H) as [vs [-> [Hlen Hall]]].
      exists (v :: vs). rewrite <- app_assoc. simpl.
      split; [reflexivity|]. split; [lia|].
      constructor; [eapply convert_item_value; eassumption | assumption].
    + intros H. destruct (IH _ H) as [vs [-> [Hlen Hall]]].
      exists vs. auto.
Qed.

(** X4.  Whatever the declared types, a successful [type_check] returns
    at most one value per group and never a [None] among them. *)
Theorem type_check_values_bounded
        (input_list : list group) (target_types : option (list pytype))
        (values : list value) :
  type_check input_list target_types = Return values ->
  length values <= length input_list /\
  Forall (fun v => is_None v = false) values.
Proof.
  destruct target_types as [tys|]; simpl.
  - intros H. destruct (type_check_loop_values _ _ _ _ H) as [vs [-> [Hlen Hall]]].
    simpl. auto.
  - destruct (Nat.eqb (length input_list) 0); [|discriminate].
    intros H; inversion H; subst. simpl. split; [lia|constructor].
Qed.

Lemma convert_item_all_None (item : group) (tys : list pytype) :
  (forall t, In t tys -> try_convert item t = Return VNone) ->
  convert_item item tys = Return None.
Proof.
  induction tys as [|t tys IH]; simpl; intros H; [reflexivity|].
  rewrite (H t) by auto. simpl. apply IH. intros; apply H; auto.
Qed.

(** X5.  A group that every declared type converts to [None] is dropped
    without an error: the result is that of the remaining groups, so the
    handler receives fewer arguments than the pattern has groups. *)
Theorem group_converted_to_None_is_dropped
        (item : group) (rest_items : list group) (tys : list pytype) :
  (forall t, In t tys -> try_convert item t = Return VNone) ->
  type_check (item :: rest_items) (Some tys) = type_check rest_items (Some tys).
Proof.
  intros H. simpl. rewrite (convert_item_all_None item tys H). reflexivity.
Qed.


End Coercion.

(* ================================================================== *)
(** ** The registry: lookups across [add_command] and [remove_command] *)

Section Registry.
Context {T : Types} {C : Calls}.

Lemma get_loop_origin (command : string) (cs : list entry) found :
  get_loop command cs = Return found ->
  (found = (None, None) /\ forall e, In e cs -> rejects command e) \/
  (exists pre e post,
      cs = pre ++ e :: post /\
      (forall e', In e' pre -> rejects command e') /\
      accepts command e found).
Proof.
  induction cs as [|c cs IH]; simpl.
  - intros H; inversion H. left. split; [reflexivity | intros e []].
  - destruct (get_turn command c) as [[first|]|ex] eqn:E; simpl.
    + intros H; inversion H; subst. right. exists [], c, cs.
      split; [reflexivity|]. split; [intros e' []| exact E].
    + intros H. destruct (IH H) as [[-> Hall]|[pre [e [post [-> [Hpre Hacc]]]]]].
      * left. split; [reflexivity|]. intros e [<-|Hin]; [exact E | auto].
      * right. exists (c :: pre), e, post.
        split; [reflexivity|]. split; [|exact Hacc].
        intros e' [<-|Hin]; [exact E | auto].
    + discriminate.
Qed.

Lemma get_loop_all_rejected (command : string) (cs : list entry) :
  (forall e, In e cs -> rejects command e) ->
  get_loop command cs = Return (None, None).
Proof.
  intros H. rewrite <- (app_nil_r cs). now rewrite (get_loop_skip command cs [] H).
Qed.

(** X7.  What [get] returns always comes from the earliest entry that is
    not passed over: it returns [found] exactly when every entry is
    passed over and [found] is [(None, None)], or when some entry accepts
    the input with [found] and every entry registered before it is passed
    over. *)
Theorem get_returns_what_the_first_candidate_gives
        (command : string) (st : state) found :
  get command st = (Return found, st) <->
  (found = (None, None) /\ forall e, In e (commands (self st)) -> rejects command e) \/
  (exists pre e post,
      commands (self st) = pre ++ e :: post /\
      (forall e', In e' pre -> rejects command e') /\
      accepts command e found).
Proof.
  rewrite get_unfold. split.
  - intros H. apply get_loop_origin. now inversion H.
  - intros [[-> Hall]|[pre [e [post [Hcs [Hpre Hacc]]]]]].
    + now rewrite get_loop_all_rejected.
    + rewrite Hcs, (get_loop_skip command pre _ Hpre). simpl.
      unfold accepts in Hacc. now rewrite Hacc.
Qed.

(** X8.  [handle] answers [(False, None)] exactly when every entry is
    passed over: no handler result is ever reported as not-found. *)
Theorem handle_not_found_iff (command : string) (st : state) :
  fst (handle command st) = Return (false, VNone) <->
  forall e, In e (commands (self st)) -> rejects command e.
Proof.
  rewrite handle_unfold.
  destruct (get_loop command (commands (self st))) as [[[f|] params]|ex] eqn:E.
  - assert (Hno : fst ((r <- call_star f params ;; ret (true, r)) st)
                  <> Return (false, VNone)).
    { simpl. destruct (call_star f params st) as [[r|ex] st']; simpl; discriminate. }
    split; intros H; [contradiction|].
    rewrite (get_loop_all_rejected _ _ H) in E. discriminate.
  - split; [|reflexivity]. intros _.
    destruct (get_loop_found _ _ _ _ E) as [[_ [_ Hall]]|[e [_ He]]];
      [exact Hall | discriminate].
  - split; simpl; [discriminate|].
    intros H. rewrite (get_loop_all_rejected _ _ H) in E. discriminate.
Qed.

(** X9.  When the first entry that is not passed over is a pattern entry
    that accepts with arguments [args], [handle] returns what [_run]
    returns on its handler and [args]: a returned value [r] becomes
    [(True, r)], and an exception of the handler leaves [handle] as it
    is, uncaught. *)
Theorem handle_runs_the_handler
        (command : string) (st : state) pre e post f args :
  commands (self st) = pre ++ e :: post ->
  (forall e', In e' pre -> rejects command e') ->
  accepts command e (f, Some args) ->
  fst (handle command st) =
  match fst (_run (entry_func e) args st) with
  | Return r => Return (true, r)
  | Raise ex => Raise ex
  end.
Proof.
  intros Hcs Hpre Hacc.
  pose proof (get_turn_found _ _ _ _ Hacc) as ->.
  rewrite handle_unfold, Hcs, (get_loop_skip command pre _ Hpre). simpl.
  unfold accepts in Hacc. rewrite Hacc. unfold _run. simpl.
  destruct (invoke (entry_func e) args (world st)) as [[r|ex] w]; reflexivity.
Qed.

Lemma get_loop_app (command : string) (cs rest : list entry) :
  get_loop command (cs ++ rest) =
  match get_loop command cs with
  | Return (None, _) => get_loop command rest
  | r => r
  end.
Proof.
  induction cs as [|c cs IH]; simpl; [reflexivity|].
  destruct (get_turn command c) as [[[f params]|]|ex] eqn:E; simpl.
  - now rewrite (get_turn_found _ _ _ _ E).
  - exact IH.
  - reflexivity.
Qed.

(** X10.  A command added last never shadows an older one: after a
    successful [add_command], [get] gives for every input what it gave
    before, except where it found nothing, and there the new entry alone
    decides. *)
Theorem added_command_never_shadows
        (regex : matcher) (types : option (list pytype)) (func : Callable)
        (command : string) (st : state) :
  ~ In regex (matchers st) ->
  fst (get command (snd (add_command regex types func st))) =
  match fst (get command st) with
  | Return (None, _) =>
      fst (get command {| self := {| commands := [(regex, types, func)] |};
                          world := world st |})
  | r => r
  end.
Proof.
  intros H. rewrite (add_command_fresh _ _ _ _ H), !get_unfold. simpl.
  apply get_loop_app.
Qed.

Lemma filter_unregistered (regex : matcher) (cs : list entry) :
  ~ In regex (map entry_matcher cs) ->
  filter (fun c => negb (matcher_eqb (entry_matcher c) regex)) cs = cs.
Proof.
  intros H. apply filter_id_forallb, forallb_forall. intros e Hin.
  destruct (matcher_eqb (entry_matcher e) regex) eqn:E; [|reflexivity].
  apply matcher_eqb_eq in E. exfalso. apply H. apply in_map_iff. eauto.
Qed.

Lemma filtered_unregistered (regex : matcher) (cs : list entry) :
  ~ In regex
    (map entry_matcher
         (filter (fun c => negb (matcher_eqb (entry_matcher c) regex)) cs)).
Proof.
  rewrite in_map_iff. intros [e [He Hin]]. apply filter_In in Hin.
  destruct Hin as [_ Hin]. rewrite <- He, matcher_eqb_refl in Hin. discriminate.
Qed.

(** X11.  After [remove_command] no entry with that matcher is left, and
    removing it once more changes nothing and returns [True]. *)
Theorem remove_command_twice (regex : matcher) (st : state) :
  ~ In regex (matchers (snd (remove_command regex st))) /\
  remove_command regex (snd (remove_command regex st)) =
  (Return true, snd (remove_command regex st)).
Proof.
  split; [apply filtered_unregistered|].
  unfold remove_command at 1. simpl.
  rewrite (filter_unregistered regex _ (filtered_unregistered regex _)).
  unfold commands_eqb.
  destruct (list_eq_dec entry_eq_dec _ _) as [_|Hne]; [reflexivity|].
  now contradiction Hne.
Qed.

Lemma get_loop_filter (regex : matcher) (command : string) (cs : list entry) :
  (forall e, In e cs -> entry_matcher e = regex -> rejects command e) ->
  get_loop command (filter (fun c => negb (matcher_eqb (entry_matcher c) regex)) cs)
  = get_loop command cs.
Proof.
  induction cs as [|c cs IH]; simpl; intros H; [reflexivity|].
  assert (IH' := IH (fun e Hin => H e (or_intror Hin))).
  destruct (matcher_eqb (entry_matcher c) regex) eqn:E; simpl.
  - apply matcher_eqb_eq in E. rewrite (H c (or_introl eq_refl) E). simpl. exact IH'.
  - destruct (get_turn command c) as [[found|]|ex]; simpl; auto.
Qed.

(** X12.  Removing a matcher does not disturb the inputs its entries pass
    over: [get] gives for such an input what it gave before the removal. *)
Theorem remove_keeps_other_lookups
        (regex : matcher) (command : string) (st : state) :
  (forall e, In e (commands (self st)) ->
             entry_matcher e = regex -> rejects command e) ->
  fst (get command (snd (remove_command regex st))) = fst (get command st).
Proof.
  intros H. rewrite !get_unfold. simpl. now apply get_loop_filter.
Qed.

(** X13.  Adding a matcher that is not registered and removing it again
    gives back the list of entries as it was; that [remove_command] returns
    [False]. *)
Theorem add_then_remove_restores
        (regex : matcher) (types : option (list pytype)) (func : Callable)
        (st : state) :
  ~ In regex (matchers st) ->
  remove_command regex (snd (add_command regex types func st)) = (Return false, st).
Proof.
  intros H. rewrite (add_command_fresh _ _ _ _ H).
  unfold remove_command. simpl. rewrite commands_eqb_filter.
  rewrite filter_app, forallb_app, (filter_unregistered _ _ H). simpl.
  rewrite matcher_eqb_refl. simpl. rewrite app_nil_r, andb_false_r.
  destruct st as [[cs] w]. reflexivity.
Qed.

Lemma reachable_distinct (st : state) : reachable st -> NoDup (matchers st).
Proof.
  induction 1 as [w|c st H IH].
  - constructor.
  - pose proof (after_commands c st) as Hc.
    destruct c; try (unfold matchers; rewrite Hc; exact IH).
    + now apply add_command_NoDup.
    + now apply remove_command_NoDup.
Qed.

Lemma filter_one_out (regex : matcher) (cs : list entry) :
  NoDup (map entry_matcher cs) ->
  In regex (map entry_matcher cs) ->
  S (length (filter (fun c => negb (matcher_eqb (entry_matcher c) regex)) cs))
  = length cs.
Proof.
  induction cs as [|c cs IH]; simpl; intros Hnd Hin; [contradiction|].
  apply NoDup_cons_iff in Hnd. destruct Hnd as [Hfresh Hnd].
  destruct (matcher_eqb (entry_matcher c) regex) eqn:E; simpl.
  - apply matcher_eqb_eq in E. rewrite E in Hfresh.
    now rewrite (filter_unregistered _ _ Hfresh).
  - apply matcher_eqb_neq in E. destruct Hin as [Hin|Hin]; [contradiction|].
    now rewrite (IH Hnd Hin).
Qed.

(** X14.  In a registry built with the methods of the class, removing a
    registered matcher removes exactly one entry. *)
Theorem remove_registered_removes_one (regex : matcher) (st : state) :
  reachable st ->
  In regex (matchers st) ->
  S (length (commands (self (snd (remove_command regex st)))))
  = length (commands (self st)).
Proof.
  intros Hr Hin. rewrite remove_command_commands.
  apply filter_one_out; [apply (reachable_distinct st Hr) | exact Hin].
Qed.

(** X15.  An exception that does not derive from [Exception], raised by a
    class used as declared type, is caught neither by [try_convert] nor by
    [get]: it ends the search, and [get] and [handle] raise it, even when
    a later entry would accept the input. *)
Theorem converter_exit_escapes
        (command : string) (st : state) pre p c rest_types func post
        (item : group) (rest_items : list group) (ex : exn) :
  commands (self st) = pre ++ (MPattern p, Some (Tclass c :: rest_types), func) :: post ->
  (forall e', In e' pre -> rejects command e') ->
  re_match p command = Some (item :: rest_items) ->
  construct c item = Raise ex ->
  is_Exception ex = false ->
  fst (get command st) = Raise ex /\ fst (handle command st) = Raise ex.
Proof.
  intros Hcs Hpre Hm Hc Hex.
  assert (Hloop : get_loop command (commands (self st)) = Raise ex).
  { rewrite Hcs, (get_loop_skip command pre _ Hpre). simpl.
    unfold get_turn. simpl. rewrite Hm. simpl.
    unfold try_convert. simpl. rewrite Hc, Hex. simpl.
    destruct ex; try discriminate. reflexivity. }
  split.
  - rewrite get_unfold, Hloop. reflexivity.
  - rewrite handle_unfold, Hloop. reflexivity.
Qed.

End Registry.

(* ================================================================== *)
(** ** Callables that call back: what [get] and [handle] write *)

Module Callbacks.
Import Reentrant.

Section Frame.
Context {T : Types} {C : Reentrant.Calls}.

Lemma same_registry_refl (st : machine) : same_registry st st.
Proof. split; auto. Qed.

Lemma same_registry_trans (a b c : machine) :
  same_registry a b -> same_registry b c -> same_registry a c.
Proof.
  intros [H1 H2] [H3 H4]. split; [congruence|].
  intros x. rewrite H4. apply H2.
Qed.

(** A relation between the machine before and after, kept by every call
    of a declared type. *)
Variable R : machine -> machine -> Prop.
Hypothesis R_refl : forall st, R st st.
Hypothesis R_trans : forall a b c, R a b -> R b c -> R a c.
Hypothesis R_construct : forall c item, preserves R (construct c item).

Lemma preserves_ret {A} (a : A) : preserves R (ret a).
Proof. intros st. apply R_refl. Qed.

Lemma preserves_raise {A} (e : exn) : preserves R (@raise T A e).
Proof. intros st. apply R_refl. Qed.

Lemma preserves_lift {A} (o : outcome A) : preserves R (lift o).
Proof. intros st. apply R_refl. Qed.

Lemma preserves_bind {A B} (c : M A) (k : A -> M B) :
  preserves R c -> (forall a, preserves R (k a)) -> preserves R (bind c k).
Proof.
  intros Hc Hk st. simpl. specialize (Hc st).
  destruct (c st) as [[a|e] st']; simpl in *; [|exact Hc].
  eapply R_trans; [exact Hc | apply Hk].
Qed.

Lemma preserves_try_convert (item : group) (t : pytype) :
  preserves R (try_convert item t).
Proof.
  assert (Hb : preserves R (try_convert_body item t)).
  { destruct t; simpl; try apply R_construct;
      try (destruct item as [s|]; simpl);
      try (destruct (int_of_str s)); try (destruct (float_of_str s));
      first [apply preserves_ret | apply preserves_raise]. }
  intros st. specialize (Hb st). unfold try_convert.
  destruct (try_convert_body item t st) as [[v|e] st']; exact Hb.
Qed.

Lemma preserves_convert_item (item : group) (tys : list pytype) :
  preserves R (convert_item item tys).
Proof.
  induction tys as [|t tys IH]; simpl; [apply preserves_ret|].
  apply preserves_bind; [apply preserves_try_convert|].
  intros v. destruct (negb (is_None v)); [apply preserves_ret | exact IH].
Qed.

Lemma preserves_type_check_loop (input_list : list group) tys acc :
  preserves R (type_check_loop input_list tys acc).
Proof.
  revert acc. induction input_list as [|item rest IH]; intros acc; simpl;
    [apply preserves_ret|].
  apply preserves_bind; [apply preserves_convert_item|].
  intros [v|]; apply IH.
Qed.

Lemma preserves_type_check (input_list : list group) types :
  preserves R (type_check input_list types).
Proof.
  destruct types as [tys|]; simpl; [apply preserves_type_check_loop|].
  destruct (Nat.eqb (length input_list) 0);
    [apply preserves_ret | apply preserves_raise].
Qed.

Lemma preserves_get_turn (command : string) (e : entry) :
  preserves R (get_turn command e).
Proof.
  assert (Ht : preserves R (get_try command e)).
  { destruct e as [[[s|p] types] func]; simpl.
    - destruct (String.eqb s command); apply preserves_ret.
    - intros st. simpl.
      destruct (re_match p command) as [[groups|]|ex]; simpl; try apply R_refl.
      pose proof (preserves_type_check groups types st) as H.
      destruct (type_check groups types st) as [[args|ex] st1]; exact H. }
  intros st. specialize (Ht st). unfold get_turn.
  destruct (get_try command e st) as [[r|ex] st']; exact Ht.
Qed.

(** The handler a turn returns is that of its entry. *)
Lemma get_turn_handler (command : string) (e : entry) (st st' : machine) func params :
  get_turn command e st = (Return (Some (func, params)), st') ->
  func = Some (entry_func e).
Proof.
  unfold get_turn, get_try. destruct e as [[[s|p] types] f]; simpl.
  - destruct (String.eqb s command); simpl; intros H; inversion H; reflexivity.
  - destruct (re_match p command) as [[groups|]|ex]; simpl.
    + destruct (type_check groups types st) as [[args|ex] st1]; simpl.
      * intros H; inversion H; reflexivity.
      * destruct (is_ValueError ex); discriminate.
    + discriminate.
    + destruct (is_ValueError ex); discriminate.
Qed.

(** If the calls of declared types also leave the list objects alone, the
    loop ends within one turn per entry and one more. *)
Hypothesis R_same : forall st st', R st st' -> same_registry st st'.

Lemma get_loop_ends (command : string) (st : machine) :
  forall turns i st',
    R st st' ->
    i <= length (entries st) ->
    length (entries st) - i < turns ->
    exists r st'',
      get_loop turns command (bound st) i st' = Some (r, st'') /\
      R st st'' /\
      forall func params,
        r = Return (func, params) ->
        (func = None /\ params = None) \/
        (exists e, In e (entries st) /\ func = Some (entry_func e)).
Proof.
  induction turns as [|turns IH]; intros i st' HR Hi Hlt; [lia|].
  cbn [get_loop].
  destruct (R_same _ _ HR) as [_ Hheap]. rewrite Hheap. fold (entries st).
  destruct (nth_error (entries st) i) as [e|] eqn:E.
  - assert (Hlen : i < length (entries st)).
    { apply nth_error_Some. congruence. }
    pose proof (preserves_get_turn command e st') as Ht.
    destruct (get_turn command e st') as [[[[func params]|]|ex] st1] eqn:Eturn;
      simpl in Ht.
    + exists (Return (func, params)), st1.
      split; [reflexivity|]. split; [eapply R_trans; eassumption|].
      intros f ps Hr. inversion Hr; subst. right. exists e.
      split; [eapply nth_error_In; eassumption|].
      eapply get_turn_handler; eassumption.
    + apply IH; [eapply R_trans; eassumption | lia | lia].
    + exists (Raise ex), st1.
      split; [reflexivity|]. split; [eapply R_trans; eassumption|].
      discriminate.
  - exists (Return (None, None)), st'.
    split; [reflexivity|]. split; [exact HR|].
    intros f ps Hr. inversion Hr. auto.
Qed.

Lemma get_ends (command : string) (st : machine) :
  exists r st',
    get (S (length (entries st))) command st = Some (r, st') /\
    R st st' /\
    forall func params,
      r = Return (func, params) ->
      (func = None /\ params = None) \/
      (exists e, In e (entries st) /\ func = Some (entry_func e)).
Proof.
  unfold get. apply get_loop_ends; [apply R_refl | lia | lia].
Qed.

Lemma handle_ends (command : string) (st : machine) :
  (forall f args, preserves R (invoke f args)) ->
  exists r st',
    handle (S (length (entries st))) command st = Some (r, st') /\ R st st'.
Proof.
  intros Hinv. unfold handle.
  destruct (get_ends command st) as [r [st1 [-> [HR _]]]].
  destruct r as [[[f|] params]|ex]; try (eexists; eexists; split; [reflexivity|exact HR]).
  assert (Hcall : preserves R (r <- call_star f params ;; ret (true, r))).
  { apply preserves_bind; [|intros; apply preserves_ret].
    destruct params; simpl; [apply Hinv | apply preserves_raise]. }
  specialize (Hcall st1).
  destruct ((r <- call_star f params ;; ret (true, r)) st1) as [r' st2].
  exists r', st2. split; [reflexivity|]. eapply R_trans; eassumption.
Qed.

End Frame.

Section Writes.
Context {T : Types} {C : Reentrant.Calls}.

Lemma same_registry_entries (st st' : machine) :
  same_registry st st' -> entries st' = entries st.
Proof. intros [Hb Hh]. unfold entries. now rewrite Hb, Hh. Qed.

(** With declared types that have no effect at all, a turn that is passed
    over in one machine is passed over in every machine reached. *)
Lemma get_loop_passed_over (command : string) (cs : list entry) (a : nat) :
  (forall c item st0, snd (construct c item st0) = st0) ->
  forall turns i st,
    heap st a = cs ->
    (forall e, In e cs -> fst (get_turn command e st) = Return None) ->
    i <= length cs -> length cs - i < turns ->
    get_loop turns command a i st = Some (Return (None, None), st).
Proof.
  intros Hpure. induction turns as [|turns IH]; intros i st Hcs Hall Hi Hlt; [lia|].
  cbn [get_loop]. rewrite Hcs.
  destruct (nth_error cs i) as [e|] eqn:E; [|reflexivity].
  assert (Hlen : i < length cs) by (apply nth_error_Some; congruence).
  pose proof (Hall e (nth_error_In _ _ E)) as He.
  pose proof (preserves_get_turn eq (@eq_refl _) (@eq_trans _)
                (fun c item st0 => eq_sym (Hpure c item st0)) command e st) as Hst.
  destruct (get_turn command e st) as [[[found|]|ex] st1]; simpl in He, Hst;
    try discriminate.
  subst st1. apply IH; auto; lia.
Qed.


Lemma try_convert_plain (item : group) (t : pytype) (st : machine) :
  custom t = false ->
  exists r, try_convert item t st = (r, st) /\
            forall ex, r = Raise ex -> ex = ValueError.
Proof.
  unfold try_convert.
  destruct t; try discriminate; intros _; simpl;
    try (destruct item as [s|]; simpl);
    try (destruct (int_of_str s); simpl);
    try (destruct (float_of_str s); simpl);
    eexists; (split; [reflexivity|]); intros ex H; now inversion H.
Qed.

Lemma convert_item_plain (item : group) (tys : list pytype) (st : machine) :
  forallb (fun t => negb (custom t)) tys = true ->
  exists r, convert_item item tys st = (r, st) /\
            forall ex, r = Raise ex -> ex = ValueError.
Proof.
  induction tys as [|t tys IH]; simpl; intros Hall.
  - eexists; split; [reflexivity|discriminate].
  - apply andb_prop in Hall. destruct Hall as [Ht Hall].
    apply negb_true_iff in Ht.
    destruct (try_convert_plain item t st Ht) as [[v|ex] [-> Hr]]; simpl.
    + destruct (negb (is_None v)); [|now apply IH].
      eexists; split; [reflexivity|discriminate].
    + eexists; split; [reflexivity|]. intros ex' H; inversion H; subst. now apply Hr.
Qed.

Lemma type_check_loop_plain (input_list : list group) tys acc (st : machine) :
  forallb (fun t => negb (custom t)) tys = true ->
  exists r, type_check_loop input_list tys acc st = (r, st) /\
            forall ex, r = Raise ex -> ex = ValueError.
Proof.
  intros Hall. revert acc.
  induction input_list as [|item rest IH]; intros acc; simpl.
  - eexists; split; [reflexivity|discriminate].
  - destruct (convert_item_plain item tys st Hall) as [[[v|]|ex] [-> Hr]]; simpl;
      try apply IH.
    eexists; split; [reflexivity|]. intros ex' H; inversion H; subst. now apply Hr.
Qed.

Lemma get_turn_plain (command : string) (e : entry) (st : machine) :
  plain e = true ->
  exists r, get_turn command e st = (r, st) /\
            forall ex, r = Raise ex ->
                       exists p, entry_matcher e = MPattern p /\
                                 re_match p command = Raise ex.
Proof.
  unfold plain, entry_types, entry_matcher, get_turn, get_try.
  destruct e as [[[s|p] types] func]; simpl; intros Hp.
  - destruct (String.eqb s command); simpl;
      eexists; (split; [reflexivity|discriminate]).
  - destruct (re_match p command) as [[groups|]|ex] eqn:Em; simpl.
    + assert (Ht : exists r, type_check groups types st = (r, st) /\
                             forall ex, r = Raise ex -> ex = ValueError).
      { destruct types as [tys|]; simpl.
        - now apply type_check_loop_plain.
        - destruct (Nat.eqb (length groups) 0); simpl;
            eexists; (split; [reflexivity|]); intros ex H; now inversion H. }
      destruct Ht as [[args|ex] [-> Hr]]; simpl.
      * eexists; split; [reflexivity|discriminate].
      * rewrite (Hr ex eq_refl). simpl.
        eexists; split; [reflexivity|discriminate].
    + eexists; split; [reflexivity|discriminate].
    + destruct (is_ValueError ex) eqn:V; simpl.
      * eexists; split; [reflexivity|discriminate].
      * eexists; split; [reflexivity|]. intros ex' H; inversion H; subst. eauto.
Qed.

Lemma get_loop_plain (command : string) (st : machine) :
  (forall e, In e (entries st) -> plain e = true) ->
  forall turns i,
    i <= length (entries st) -> length (entries st) - i < turns ->
    exists r,
      get_loop turns command (bound st) i st = Some (r, st) /\
      forall ex, r = Raise ex ->
                 exists e p, In e (entries st) /\ entry_matcher e = MPattern p /\
                             re_match p command = Raise ex.
Proof.
  intros Hall. induction turns as [|turns IH]; intros i Hi Hlt; [lia|].
  cbn [get_loop]. fold (entries st).
  destruct (nth_error (entries st) i) as [e|] eqn:E.
  - assert (Hlen : i < length (entries st)) by (apply nth_error_Some; congruence).
    pose proof (nth_error_In _ _ E) as Hin.
    destruct (get_turn_plain command e st (Hall e Hin)) as [[[found|]|ex] [-> Hr]].
    + eexists; split; [reflexivity|discriminate].
    + apply IH; lia.
    + eexists; split; [reflexivity|]. intros ex' H; inversion H; subst.
      destruct (Hr ex' eq_refl) as [p [Hm Hp]]. eauto.
  - eexists; split; [reflexivity|discriminate].
Qed.


End Writes.
End Callbacks.

(* ================================================================== *)
(** ** [CommandBuilder] is [Reentrant] for callables that stay outside *)

Module Refinement.
Import Reentrant.
Import Outside.

Section Bridge.
Context {T : Types} {C : Py.Calls}.

Lemma outside_try_convert (item : group) (t : pytype) (m : machine) :
  try_convert item t m = (CommandBuilder.try_convert item t, m).
Proof.
  unfold try_convert, CommandBuilder.try_convert.
  destruct t; simpl;
    try (destruct (Py.construct c item) as [v|ex]; reflexivity);
    try (destruct item as [s|]; simpl);
    try (destruct (Py.int_of_str s); simpl);
    try (destruct (Py.float_of_str s); simpl);
    reflexivity.
Qed.

Lemma outside_convert_item (item : group) (tys : list pytype) (m : machine) :
  convert_item item tys m = (CommandBuilder.convert_item item tys, m).
Proof.
  induction tys as [|t tys IH]; simpl; [reflexivity|].
  rewrite outside_try_convert.
  destruct (CommandBuilder.try_convert item t) as [v|ex]; simpl; [|reflexivity].
  destruct (negb (is_None v)); [reflexivity | exact IH].
Qed.

Lemma outside_type_check_loop (input_list : list group) tys acc (m : machine) :
  type_check_loop input_list tys acc m
  = (CommandBuilder.type_check_loop input_list tys acc, m).
Proof.
  revert acc. induction input_list as [|item rest IH]; intros acc; simpl;
    [reflexivity|].
  rewrite outside_convert_item.
  destruct (CommandBuilder.convert_item item tys) as [[v|]|ex]; simpl;
    [apply IH | apply IH | reflexivity].
Qed.

Lemma outside_type_check (input_list : list group) types (m : machine) :
  type_check input_list types m = (CommandBuilder.type_check input_list types, m).
Proof.
  destruct types as [tys|]; simpl; [apply outside_type_check_loop|].
  destruct (Nat.eqb (length input_list) 0); reflexivity.
Qed.

Lemma outside_get_turn (command : string) (e : entry) (m : machine) :
  get_turn command e m = (CommandBuilder.get_turn command e, m).
Proof.
  unfold get_turn, CommandBuilder.get_turn, get_try, CommandBuilder.get_try.
  destruct e as [[[s|p] types] func]; simpl.
  - destruct (String.eqb s command); reflexivity.
  - destruct (Py.re_match p command) as [groups|]; simpl; [|reflexivity].
    rewrite outside_type_check.
    destruct (CommandBuilder.type_check groups types) as [args|ex]; simpl;
      [reflexivity|].
    destruct (is_ValueError ex); reflexivity.
Qed.

Lemma skipn_nth_error {A} (l : list A) (i : nat) :
  match nth_error l i with
  | Some x => skipn i l = x :: skipn (S i) l
  | None => skipn i l = []
  end.
Proof.
  revert i. induction l as [|a l IH]; intros [|i]; simpl; try reflexivity.
  apply IH.
Qed.

Lemma outside_get_loop (command : string) (cs : list entry) (a : nat) (m : machine) :
  heap m a = cs ->
  forall turns i,
    i <= length cs -> length cs - i < turns ->
    get_loop turns command a i m
    = Some (CommandBuilder.get_loop command (skipn i cs), m).
Proof.
  intros Hcs. induction turns as [|turns IH]; intros i Hi Hlt; [lia|].
  cbn [get_loop]. rewrite Hcs.
  pose proof (skipn_nth_error cs i) as Hs.
  destruct (nth_error cs i) as [e|] eqn:E.
  - assert (Hlen : i < length cs) by (apply nth_error_Some; congruence).
    rewrite Hs. simpl. rewrite outside_get_turn.
    destruct (CommandBuilder.get_turn command e) as [[found|]|ex]; simpl;
      try reflexivity.
    apply IH; lia.
  - rewrite Hs. reflexivity.
Qed.

(** X17.  For callables that stay outside the instance (declared types
    without side effects, handlers that act on the world only, patterns
    whose [match] does not raise) the methods of [Reentrant] are those of
    [CommandBuilder]: on a machine that holds the entries and the world
    of a state, one turn per entry and one more are enough for [get] and
    [handle], they return what their counterparts return, [get] leaves
    the machine as it was, and [handle], [add_command] and
    [remove_command] leave a machine that holds the entries and the world
    their counterparts leave. *)
Theorem outside_callables_refine
        (m : machine) (st : state) (command : string) :
  models m st ->
  get (S (length (commands (self st)))) command m
  = Some (fst (CommandBuilder.get command st), m) /\
  (exists m',
      handle (S (length (commands (self st)))) command m
      = Some (fst (CommandBuilder.handle command st), m') /\
      models m' (snd (CommandBuilder.handle command st))) /\
  (forall regex types func,
      fst (add_command regex types func m)
      = fst (CommandBuilder.add_command regex types func st) /\
      models (snd (add_command regex types func m))
             (snd (CommandBuilder.add_command regex types func st))) /\
  (forall regex,
      fst (remove_command regex m) = fst (CommandBuilder.remove_command regex st) /\
      models (snd (remove_command regex m))
             (snd (CommandBuilder.remove_command regex st))).
Proof.
  intros [Hcs Hw].
  assert (Hget : get (S (length (commands (self st)))) command m
                 = Some (CommandBuilder.get_loop command (commands (self st)), m)).
  { unfold get. rewrite (outside_get_loop command _ (bound m) m Hcs); [reflexivity | lia | lia]. }
  split; [exact Hget|]. split; [|split].
  - unfold handle. rewrite Hget, handle_unfold.
    destruct (CommandBuilder.get_loop command (commands (self st)))
      as [[[f|] params]|ex]; simpl;
      try (eexists; split; [reflexivity | split; assumption]).
    destruct params as [args|]; simpl;
      [|eexists; split; [reflexivity | split; assumption]].
    rewrite Hw.
    destruct (Py.invoke f args (world st)) as [[r|ex] w]; simpl;
      eexists; (split; [reflexivity | split; [exact Hcs | reflexivity]]).
  - intros regex types func.
    unfold add_command, CommandBuilder.add_command. simpl. rewrite Hcs.
    destruct (Nat.eqb _ 0); simpl; (split; [reflexivity|]); split; simpl; auto.
    unfold entries. simpl. rewrite Nat.eqb_refl. fold (entries m). now rewrite Hcs.
  - intros regex.
    unfold remove_command, CommandBuilder.remove_command. simpl. rewrite Hcs.
    split; [reflexivity|]. split; simpl; [|exact Hw].
    unfold entries. simpl. now rewrite Nat.eqb_refl.
Qed.

End Bridge.
End Refinement.

(* ================================================================== *)
(** ** The statements on the registries of [Demo] *)

Import Demo.

Lemma handle_exact_string_raises_witness :
  get "exit" calculator = (Return (Some fn_exit, None), calculator) /\
  handle "exit" calculator = (Raise TypeError, calculator).
Proof.
  apply (handle_exact_string_raises
           "exit" calculator
           (firstn 4 (commands (self calculator))) None fn_exit []).
  - reflexivity.
  - intros e H. simpl in H.
    repeat (destruct H as [<-|H]; [reflexivity|]). contradiction.
Defined.

Lemma type_check_stops_at_first_failure_witness :
  try_convert (Some "x") Tint = Raise ValueError /\
  try_convert (Some "x") Tstr = Return (VStr "x") /\
  type_check [Some "x"] (Some [Tint; Tstr]) = Raise ValueError.
Proof.
  split; [reflexivity|]. split; [reflexivity|].
  apply (type_check_stops_at_first_failure (Some "x") Tint ValueError).
  reflexivity.
Defined.

Lemma remove_command_result_witness :
  exists b : bool,
    fst (remove_command (MStr "exit") calculator) = Return b /\
    b = false /\
    length (commands (self calculator)) = 5 /\
    length (commands (self (snd (remove_command (MStr "exit") calculator)))) = 4.
Proof.
  destruct (remove_command_result (MStr "exit") calculator) as [b [Hdef _]].
  exists b. rewrite Hdef. simpl. split; [reflexivity|].
  split; [|split; reflexivity].
  vm_compute in Hdef. inversion Hdef. reflexivity.
Defined.

(** [remove_command] on the driver's registry: [False] for [exit], which
    is removed, [True] for [quit], which was never there. *)
Example remove_command_registered :
  fst (remove_command (MStr "exit") calculator) = Return false /\
  fst (remove_command (MStr "quit") calculator) = Return true /\
  snd (remove_command (MStr "quit") calculator) = calculator.
Proof. repeat split. Qed.

Lemma coercion_failure_is_no_match_witness :
  re_match (lits "add " ++ [AnyGroup]) "add x" = Some [Some "x"] /\
  type_check [Some "x"] (Some [Tint]) = Raise ValueError /\
  get "add x" unary_builder = (Return (None, None), unary_builder) /\
  handle "add x" unary_builder = (Return (false, VNone), unary_builder).
Proof.
  split; [reflexivity|]. split; [reflexivity|].
  apply (proj2 (proj2 (coercion_failure_is_no_match "add x" unary_builder))).
  intros e H. simpl in H. destruct H as [<-|H]; [|contradiction].
  simpl. right. exists [Some "x"]. split; reflexivity.
Defined.

Lemma matchers_are_unique_witness :
  NoDup (matchers calculator) /\
  fst (add_command (MStr "exit") None fn_exit calculator) = Return false /\
  fst (add_command (MStr "quit") None fn_exit calculator) = Return true.
Proof.
  split; [|split].
  - apply (proj1 matchers_are_unique calculator).
    unfold calculator, run. cbn [fold_left].
    repeat apply reachable_step. apply reachable_init.
  - rewrite (proj1 (proj2 (proj2 matchers_are_unique))
                   calculator (MStr "exit") None fn_exit); [reflexivity|].
    simpl. tauto.
  - rewrite (proj1 (proj2 matchers_are_unique)
                   calculator (MStr "quit") None fn_exit); [reflexivity|].
    simpl. intros H. repeat (destruct H as [H|H]; [discriminate H|]). exact H.
Defined.

Lemma first_accepting_entry_wins_witness :
  accepts "echo hi" catch_all (Some absent, Some [VStr "echo hi"]) /\
  get "echo hi" overlapping_builder
  = (Return (Some fn_echo, Some [VStr "hi"]), overlapping_builder) /\
  fst (handle "echo hi" overlapping_builder) = Return (true, VNone) /\
  world (snd (handle "echo hi" overlapping_builder)) = ["hi"].
Proof.
  split; [reflexivity|].
  destruct (first_accepting_entry_wins
              "echo hi" overlapping_builder
              [(binary "add", Some [Tint; Tint], fn_add)]
              (re_compile_echo, Some [Tstr], fn_echo)
              [catch_all]
              (Some fn_echo, Some [VStr "hi"])) as [Hget [_ Hhandle]].
  - reflexivity.
  - intros e H. simpl in H. destruct H as [<-|H]; [reflexivity|contradiction].
  - reflexivity.
  - split; [exact Hget|]. rewrite Hhandle. split; reflexivity.
Defined.

Lemma bool_conversion_never_fails_witness :
  re_match (lits "flag " ++ [AnyGroup]) "flag False" = Some [Some "False"] /\
  accepts "flag False" flag (Some fn_echo, Some [VBool true]) /\
  accepts "flag " flag (Some fn_echo, Some [VBool false]).
Proof.
  split; [reflexivity|]. split.
  - apply (proj2 (proj2 (proj2 (proj2 (proj2 (@bool_conversion_never_fails types calls)))))
             "flag False" (lits "flag " ++ [AnyGroup]) [] fn_echo [Some "False"]).
    reflexivity.
  - apply (proj2 (proj2 (proj2 (proj2 (proj2 (@bool_conversion_never_fails types calls)))))
             "flag " (lits "flag " ++ [AnyGroup]) [] fn_echo [Some ""]).
    reflexivity.
Defined.

(** The driver's commands on well-formed input. *)
Example driver_add : fst (handle "add 3 4" calculator) = Return (true, VInt 7).
Proof. reflexivity. Qed.

Example driver_unknown : fst (handle "add 3 x" calculator) = Return (false, VNone).
Proof. reflexivity. Qed.

Example driver_repr :
  fst (__repr__ calculator) = Return "<CommandBuilder commands: 5 command>" /\
  fst (__repr__ unary_builder) = Return "<CommandBuilder commands: 1 commands>".
Proof. split; reflexivity. Qed.

(** *** Coercion and registry statements on the same registries *)

Lemma first_builtin_type_decides_witness :
  builtin Tint = true /\
  type_check [Some "3"; Some "4"] (Some [Tint; Tstr])
  = type_check [Some "3"; Some "4"] (Some [Tint]).
Proof.
  split; [reflexivity|].
  apply (first_builtin_type_decides Tint [Tstr] [Some "3"; Some "4"]).
  reflexivity.
Defined.

Lemma str_conversion_never_fails_witness :
  re_match (lits "echo " ++ [AnyGroup]) "echo hi" = Some [Some "hi"] /\
  accepts "echo hi" (re_compile_echo, Some [Tstr], fn_echo)
          (Some fn_echo, Some [VStr "hi"]).
Proof.
  split; [reflexivity|].
  apply (proj2 (proj2 (@str_conversion_never_fails types calls [Some "hi"] []))
               "echo hi" (lits "echo " ++ [AnyGroup]) fn_echo).
  reflexivity.
Defined.

Lemma empty_type_list_drops_every_group_witness :
  re_match (lits "add " ++ [AnyGroup]) "add x" = Some [Some "x"] /\
  accepts "add x" (MPattern (lits "add " ++ [AnyGroup]), Some [], fn_exit)
          (Some fn_exit, Some []) /\
  rejects "add x" (MPattern (lits "add " ++ [AnyGroup]), None, fn_exit).
Proof.
  split; [reflexivity|].
  destruct (@empty_type_list_drops_every_group
              types calls "add x" (lits "add " ++ [AnyGroup]) fn_exit [Some "x"])
    as [_ [Hacc [Hrej _]]].
  - reflexivity.
  - split; [exact Hacc|]. apply Hrej. discriminate.
Defined.

Lemma type_check_values_bounded_witness :
  type_check [Some "x"; Some "5"] (Some [@Tcallable types absent; Tstr])
  = Return [VStr "x"; VStr "5"] /\
  length [VStr "x"; VStr "5"] <= length [Some "x"; Some "5"] /\
  Forall (fun v => is_None v = false) [VStr "x"; VStr "5"].
Proof.
  split; [reflexivity|].
  apply (type_check_values_bounded
           [Some "x"; Some "5"] (Some [@Tcallable types absent; Tstr])).
  reflexivity.
Defined.

Lemma group_converted_to_None_is_dropped_witness :
  try_convert (Some "x") (@Tcallable types absent) = Return VNone /\
  type_check [Some "x"; Some "5"] (Some [@Tcallable types absent])
  = type_check [Some "5"] (Some [@Tcallable types absent]).
Proof.
  split; [reflexivity|].
  apply (group_converted_to_None_is_dropped (Some "x") [Some "5"] [@Tcallable types absent]).
  intros t H. simpl in H. destruct H as [<-|H]; [reflexivity|contradiction].
Defined.


Lemma handle_runs_the_handler_witness :
  fst (handle "add 3 4" calculator) = Return (true, VInt 7).
Proof.
  rewrite (handle_runs_the_handler
             "add 3 4" calculator
             [(re_compile_echo, Some [Tstr], fn_echo)]
             (binary "add", Some [Tint; Tint], fn_add)
             (skipn 2 (commands (self calculator)))
             (Some fn_add) [VInt 3; VInt 4]).
  - reflexivity.
  - reflexivity.
  - intros e H. simpl in H. destruct H as [<-|H]; [reflexivity|contradiction].
  - reflexivity.
Defined.

Lemma added_command_never_shadows_witness :
  fst (get "quit" (snd (add_command (MStr "quit") None fn_exit calculator)))
  = Return (Some fn_exit, None) /\
  fst (get "add 3 4" (snd (add_command (MStr "quit") None fn_exit calculator)))
  = Return (Some fn_add, Some [VInt 3; VInt 4]).
Proof.
  assert (Hfresh : ~ In (MStr "quit") (matchers calculator)).
  { simpl. intros H. repeat (destruct H as [H|H]; [discriminate H|]). exact H. }
  split.
  - rewrite (@added_command_never_shadows types calls
               (MStr "quit") None fn_exit "quit" calculator Hfresh).
    reflexivity.
  - rewrite (@added_command_never_shadows types calls
               (MStr "quit") None fn_exit "add 3 4" calculator Hfresh).
    reflexivity.
Defined.

Lemma remove_keeps_other_lookups_witness :
  fst (get "add 3 4" (snd (remove_command (MStr "exit") calculator)))
  = Return (Some fn_add, Some [VInt 3; VInt 4]).
Proof.
  rewrite (@remove_keeps_other_lookups types calls (MStr "exit") "add 3 4" calculator).
  - reflexivity.
  - intros e H. simpl in H.
    repeat (destruct H as [<-|H];
            [intros Hm; first [discriminate Hm | reflexivity]|]).
    contradiction.
Defined.

Lemma add_then_remove_restores_witness :
  remove_command (MStr "quit")
                 (snd (add_command (MStr "quit") None fn_exit calculator))
  = (Return false, calculator).
Proof.
  apply (@add_then_remove_restores types (MStr "quit") None fn_exit calculator).
  simpl. intros H. repeat (destruct H as [H|H]; [discriminate H|]). exact H.
Defined.

Lemma remove_registered_removes_one_witness :
  S (length (commands (self (snd (remove_command (MStr "exit") calculator)))))
  = length (commands (self calculator)).
Proof.
  apply (@remove_registered_removes_one types calls (MStr "exit") calculator).
  - unfold calculator, run. cbn [fold_left].
    repeat apply reachable_step. apply reachable_init.
  - simpl. tauto.
Defined.

Lemma converter_exit_escapes_witness :
  @accepts Exiting.types Exiting.calls "quit"
           (@MPattern Exiting.types (lits "quit"), None, tt) (Some tt, Some []) /\
  fst (@get Exiting.types Exiting.calls "quit" Exiting.exit_builder)
  = Raise (BaseExceptionOnly "SystemExit") /\
  fst (@handle Exiting.types Exiting.calls "quit" Exiting.exit_builder)
  = Raise (BaseExceptionOnly "SystemExit").
Proof.
  split; [reflexivity|].
  apply (@converter_exit_escapes
           Exiting.types Exiting.calls "quit" Exiting.exit_builder
           [] [AnyGroup] tt [] tt
           [(@MPattern Exiting.types (lits "quit"), None, tt)]
           (Some "quit") []).
  - reflexivity.
  - intros e' [].
  - reflexivity.
  - reflexivity.
  - reflexivity.
Defined.


(** *** Callables that call back *)


(** The two runs in full: the handler [grow] is called and returns the
    [True] of its [add_command]; the declared type [enlist] is called
    during the search. *)
Example grow_and_enlist :
  (exists st',
      @Reentrant.handle Growing.types Growing.calls 2 "grow" Growing.grow_builder
      = Some (Return (true, VBool true), st') /\
      length (Reentrant.entries Growing.grow_builder) = 1 /\
      map entry_matcher (Reentrant.entries st')
      = [@MPattern Growing.types (lits "grow"); MStr "again"]) /\
  (exists st',
      @Reentrant.get Growing.types Growing.calls 2 "hi" Growing.enlist_builder
      = Some (Return (Some Growing.shout, Some [VStr "hi"]), st') /\
      map entry_matcher (Reentrant.entries st')
      = [@MPattern Growing.types [AnyGroup]; MStr "seen"]).
Proof.
  split; eexists; (split; [vm_compute; reflexivity|]); repeat split.
Qed.

(** A declared type that prints is heard during [get], which leaves the
    entries as they were. *)
Example shout_is_heard_during_lookup :
  exists st',
    @Reentrant.get Growing.types Growing.calls 2 "hi" Growing.shout_builder
    = Some (Return (Some Growing.shout, Some [VStr "hi"]), st') /\
    Reentrant.out st' = ["shout"] /\
    Reentrant.out Growing.shout_builder = [] /\
    Reentrant.entries st' = Reentrant.entries Growing.shout_builder.
Proof.
  eexists. split; [vm_compute; reflexivity|]. repeat split.
Qed.



Lemma outside_callables_refine_witness :
  let m := {| Reentrant.heap := fun _ => commands (self calculator);
              Reentrant.fresh := 1; Reentrant.bound := 0; Reentrant.out := [] |} in
  @Reentrant.get types (@Outside.calls types calls) 6 "add 3 4" m
  = Some (Return (Some fn_add, Some [VInt 3; VInt 4]), m).
Proof.
  intros m.
  apply (proj1 (@Refinement.outside_callables_refine types calls m calculator "add 3 4"
                  (conj eq_refl eq_refl))).
Defined.
